(** * The TensorFlow graph importer of ngraph: name resolution, the
      construction pass and the unimplemented-op audit

    A shallow embedding of [TFImporter]
    (src/ngraph/frontends/tensorflow/tf_importer/importer.py).  A Python
    string is a [string] whose characters are its code points, all below
    256; Python integers are [Z], the
    dictionary [name_op_map] is a [gmap], Python sets are [gset]s, and
    the importer's methods are computations in a small state-and-exception
    monad over the importer object and the interpreter heap. *)

From Stdlib Require Import ZArith Ascii String List Bool Lia.
From stdpp Require Import base option list functions gmap strings sorting.

Local Open Scope string_scope.
Local Open Scope Z_scope.

(** ** Python string and sequence primitives used by the importer

    The primitives are those of Python 3 on strings whose characters are
    code points below 256; a character of a higher code point has no
    counterpart here. *)

Module PyStr.

(** [str.split(sep)] for a one-character separator: every occurrence of
    the separator cuts, so the result is never empty. *)
Fixpoint split (sep : ascii) (s : string) : list string :=
  match s with
  | EmptyString => [EmptyString]
  | String c s' =>
      if Ascii.eqb c sep then EmptyString :: split sep s'
      else match split sep s' with
           | [] => [String c EmptyString]
           | w :: ws => String c w :: ws
           end
  end.

(** [str.replace(old, new)] for one-character [old] and [new]. *)
Fixpoint replace (old new : ascii) (s : string) : string :=
  match s with
  | EmptyString => EmptyString
  | String c s' =>
      String (if Ascii.eqb c old then new else c) (replace old new s')
  end.

(** The characters [str.isspace()] holds for, among the code points below
    256: tab, line feed, vertical tab, form feed, carriage return, the four
    separators 28 to 31, space, next line (133) and no-break space (160).
    [str.strip()] removes them at both ends. *)
Definition is_space (c : ascii) : bool :=
  let n := N_of_ascii c in
  (N.leb 9 n && N.leb n 13) || (N.leb 28 n && N.leb n 32) ||
  N.eqb n 133 || N.eqb n 160.

(** The characters [int()] skips at both ends: those of [is_space] but for
    the separators 28 to 31. *)
Definition is_int_space (c : ascii) : bool :=
  let n := N_of_ascii c in
  (N.leb 9 n && N.leb n 13) || N.eqb n 32 || N.eqb n 133 || N.eqb n 160.

Fixpoint lstrip (space : ascii -> bool) (s : string) : string :=
  match s with
  | EmptyString => EmptyString
  | String c s' => if space c then lstrip space s' else s
  end.

Fixpoint rstrip (space : ascii -> bool) (s : string) : string :=
  match s with
  | EmptyString => EmptyString
  | String c s' =>
      match rstrip space s' with
      | EmptyString => if space c then EmptyString else String c EmptyString
      | r => String c r
      end
  end.

(** [str.strip()] *)
Definition strip (s : string) : string :=
  rstrip is_space (lstrip is_space s).

(** [s[:n]] *)
Fixpoint take (n : nat) (s : string) : string :=
  match n, s with
  | S n', String c s' => String c (take n' s')
  | _, _ => EmptyString
  end.

(** [s[:-1]] *)
Fixpoint drop_last (s : string) : string :=
  match s with
  | EmptyString => EmptyString
  | String c EmptyString => EmptyString
  | String c s' => String c (drop_last s')
  end.

(** [s[1:-1]] *)
Definition slice_1_m1 (s : string) : string :=
  match s with
  | EmptyString => EmptyString
  | String _ s' => drop_last s'
  end.

Definition digit_val (c : ascii) : option Z :=
  let n := Z.of_N (N_of_ascii c) in
  if (48 <=? n) && (n <=? 57) then Some (n - 48) else None.

(** Decimal digits, with single underscores between them; [after_digit]
    tells that the character before is a digit, which an underscore and the
    end of the string need. *)
Fixpoint parse_digits (acc : Z) (after_digit : bool) (s : string) : option Z :=
  match s with
  | EmptyString => if after_digit then Some acc else None
  | String c s' =>
      match digit_val c with
      | Some d => parse_digits (10 * acc + d) true s'
      | None =>
          if Ascii.eqb c "_" && after_digit then parse_digits acc false s'
          else None
      end
  end.

(** [int(s)] on a string, base ten, as in Python 3 (3.6 and later): the
    whitespace of [is_int_space] is skipped at both ends, one sign is
    allowed, and decimal digits follow, at least one, with single
    underscores allowed between digits.  [None] stands for [ValueError]. *)
Definition int (s : string) : option Z :=
  match rstrip is_int_space (lstrip is_int_space s) with
  | EmptyString => None
  | String c r =>
      if Ascii.eqb c "-" then Z.opp <$> parse_digits 0 false r
      else if Ascii.eqb c "+" then parse_digits 0 false r
      else parse_digits 0 false (String c r)
  end.

(** [sep in s] for a one-character [sep] *)
Fixpoint occurs (sep : ascii) (s : string) : bool :=
  match s with
  | EmptyString => false
  | String c s' => Ascii.eqb c sep || occurs sep s'
  end.

(** [seq[i]] for a Python integer [i]: a negative index counts from the
    end; [None] stands for [IndexError]. *)
Definition index {A : Type} (l : list A) (i : Z) : option A :=
  let n := Z.of_nat (length l) in
  if (0 <=? i) && (i <? n) then l !! Z.to_nat i
  else if (- n <=? i) && (i <? 0) then l !! Z.to_nat (n + i)
  else None.

End PyStr.

(** ** Values, exceptions and the importer object *)

(** The identity of an ngraph [Op] object on the interpreter heap. *)
Abbreviation loc := nat.

(** What a table entry, a resolved input or a bridge result can be: [None],
    one [Op], or a tuple whose elements are [Op]s (or [None]). *)
Inductive pyval :=
| PNone
| POp (l : loc)
| PTuple (elts : list (option loc)).

Global Instance pyval_eq_dec : EqDecision pyval.
Proof. solve_decision. Defined.

(** A tuple element, or a list element of [output_op], as a value. *)
Definition of_elt (e : option loc) : pyval :=
  match e with
  | Some l => POp l
  | None => PNone
  end.

(** [x is None] *)
Definition is_none (v : pyval) : bool :=
  match v with
  | PNone => true
  | _ => false
  end.

(** The exceptions that leave the importer's methods. [OtherError] is an
    exception of any other class, raised inside the bridge. *)
Inductive exn :=
| KeyError (key : string)
| AssertionError
| ValueError
| IndexError
| OtherError (cls : string).

Global Instance exn_eq_dec : EqDecision exn.
Proof. solve_decision. Defined.

(** An external node: [tf_node.name], [tf_node.op], [tf_node.input] and
    [tf_node.attr]; the attribute values are opaque to the importer. *)
Record NodeDef (AttrValue : Type) := mkNodeDef {
  name : string;
  op : string;
  input : list string;
  attr : gmap string AttrValue;
}.
Arguments mkNodeDef {AttrValue} _ _ _ _.
Arguments name {AttrValue} _.
Arguments op {AttrValue} _.
Arguments input {AttrValue} _.
Arguments attr {AttrValue} _.

(** The [name] attribute of every [Op] object on the heap. *)
Abbreviation heap := (loc -> string).

(** The state of an [OpsBridge] object: the set the discovery pass fills,
    and a history of the calls made to the object (kept for the proofs;
    the object itself does not store it). *)
Record OpsBridge (AttrValue : Type) := mkOpsBridge {
  init_assign_op_names : gset string;
  calls : list (NodeDef AttrValue * list pyval);
}.
Arguments mkOpsBridge {AttrValue} _ _.
Arguments init_assign_op_names {AttrValue} _.
Arguments calls {AttrValue} _.

(** The attributes of a [TFImporter] object. *)
Record TFImporter (AttrValue : Type) := mkTFImporter {
  name_op_map : gmap string pyval;
  ops_bridge : OpsBridge AttrValue;
  init_ops : list pyval;
  graph_def : option (list (NodeDef AttrValue));
}.
Arguments mkTFImporter {AttrValue} _ _ _ _.
Arguments name_op_map {AttrValue} _.
Arguments ops_bridge {AttrValue} _.
Arguments init_ops {AttrValue} _.
Arguments graph_def {AttrValue} _.

(** The importer object together with the heap of [Op] objects. *)
Record world (AttrValue : Type) := mkWorld {
  self : TFImporter AttrValue;
  names : heap;
}.
Arguments mkWorld {AttrValue} _ _.
Arguments self {AttrValue} _.
Arguments names {AttrValue} _.

(** What a call of the bridge object does: it returns a value or raises,
    and leaves the heap as given. *)
Inductive bridge_outcome :=
| BReturn (v : pyval) (h : heap)
| BRaise (e : exn) (h : heap).

(** ** The state-and-exception monad of the importer's methods *)

Inductive outcome (W A : Type) :=
| Ok (a : A) (w : W)
| Raise (e : exn) (w : W).
Arguments Ok {W A} _ _.
Arguments Raise {W A} _ _.

Definition Py (W A : Type) : Type := W -> outcome W A.

Definition ret {W A} (a : A) : Py W A := fun w => Ok a w.

Definition bind {W A B} (m : Py W A) (k : A -> Py W B) : Py W B :=
  fun w =>
    match m w with
    | Ok a w' => k a w'
    | Raise e w' => Raise e w'
    end.

Definition raise {W A} (e : exn) : Py W A := fun w => Raise e w.

Notation "x <- m ;; k" := (bind m (fun x => k))
  (at level 100, m at next level, right associativity).
Notation "m ;;; k" := (bind m (fun _ => k))
  (at level 100, right associativity).

(** [assert b] *)
Definition py_assert {W} (b : bool) : Py W unit :=
  if b then ret tt else raise AssertionError.

(** [[f(x) for x in xs]], and equally a loop that replaces every element
    of a list by [f] of it, in order. *)
Fixpoint map_py {W A B} (f : A -> Py W B) (xs : list A) : Py W (list B) :=
  match xs with
  | [] => ret []
  | x :: xs' => y <- f x ;; ys <- map_py f xs' ;; ret (y :: ys)
  end.

(** [for x in xs: body(x)] *)
Fixpoint for_each {W A} (body : A -> Py W unit) (xs : list A) : Py W unit :=
  match xs with
  | [] => ret tt
  | x :: xs' => body x ;;; for_each body xs'
  end.

(** The state an outcome ends in, and whether it is an exception. *)
Definition final {W A} (r : outcome W A) : W :=
  match r with
  | Ok _ w => w
  | Raise _ w => w
  end.

Definition raised {W A} (r : outcome W A) : option exn :=
  match r with
  | Ok _ _ => None
  | Raise e _ => Some e
  end.

(** ** The importer's collaborators that are not among the sources *)

(** Modelled from the spec: [remove_tf_name_prefix] of the importer's
    [utils] module, which is missing from the sources.  "A leading
    control-dependency marker is stripped" (section 4.1); the marker is the
    prefix [^] of an input reference (section 3). *)
Definition remove_tf_name_prefix (name : string) : string :=
  match name with
  | String c rest => if Ascii.eqb c "^" then rest else name
  | EmptyString => name
  end.

(** Modelled from the spec: the constructor [OpsBridge()], which is missing
    from the sources.  A new bridge object has an empty assignment set
    ("reset ... clears all three pieces of session state", section 4.3) and
    has not been called. *)
Definition OpsBridge_new {AttrValue : Type} : OpsBridge AttrValue :=
  mkOpsBridge ∅ [].

(** ** The methods of [TFImporter] *)

Section Importer.

Context {AttrValue : Type}.

(** [OpsBridge.__call__], which is missing from the sources: from the
    bridge's assignment set, the node, the resolved inputs and the heap it
    returns an [Op], a tuple or [None], or raises; it may create and
    change [Op] objects. *)
Variable OpsBridge_call :
  gset string -> NodeDef AttrValue -> list pyval -> heap -> bridge_outcome.

Abbreviation W := (world AttrValue).

Definition set_self
    (f : TFImporter AttrValue -> TFImporter AttrValue) : Py W unit :=
  fun w => Ok tt (mkWorld (f (self w)) (names w)).

(** [TFImporter.reset] *)
Definition reset : Py W unit :=
  set_self (fun _ => mkTFImporter ∅ OpsBridge_new [] None).

(** [self.name_op_map[key]] *)
Definition name_op_map_get (key : string) : Py W pyval :=
  fun w =>
    match name_op_map (self w) !! key with
    | Some v => Ok v w
    | None => Raise (KeyError key) w
    end.

(** [self.name_op_map[key] = v] *)
Definition name_op_map_set (key : string) (v : pyval) : Py W unit :=
  set_self (fun s =>
    mkTFImporter (<[key := v]> (name_op_map s)) (ops_bridge s)
                 (init_ops s) (graph_def s)).

(** [self.ops_bridge(tf_node, input_ops)] *)
Definition ops_bridge_call
    (tf_node : NodeDef AttrValue) (input_ops : list pyval) : Py W pyval :=
  fun w =>
    let s := self w in
    let b := ops_bridge s in
    let b' := mkOpsBridge (init_assign_op_names b)
                          (calls b ++ [(tf_node, input_ops)]) in
    let s' := mkTFImporter (name_op_map s) b' (init_ops s) (graph_def s) in
    match OpsBridge_call (init_assign_op_names b) tf_node input_ops
                         (names w) with
    | BReturn v h => Ok v (mkWorld s' h)
    | BRaise e h => Raise e (mkWorld s' h)
    end.

(** [TFImporter.post_process_op]: the [Op] object is renamed in place and
    returned. *)
Definition post_process_op (op : option loc) : Py W (option loc) :=
  match op with
  | None => ret None
  | Some l =>
      fun w =>
        Ok (Some l)
           (mkWorld (self w)
                    (<[l := PyStr.replace "/" "_" (names w l)]> (names w)))
  end.

(** [TFImporter.get_op_handle_by_name] *)
Definition get_op_handle_by_name (name : string) : Py W pyval :=
  let name := remove_tf_name_prefix name in
  let name_splits := PyStr.split ":" name in
  if (1 <? length name_splits)%nat then
    py_assert (length name_splits =? 2)%nat ;;;
    idx <- match PyStr.int (nth 1 name_splits "") with
           | Some i => ret i
           | None => raise ValueError
           end ;;
    let name_truncated := nth 0 name_splits "" in
    outputs <- name_op_map_get name_truncated ;;
    match outputs with
    | PTuple elts =>
        (* [self.name_op_map[name_truncated][idx]]: the entry read again
           is [outputs], nothing has written to the table in between *)
        match PyStr.index elts idx with
        | Some e => ret (of_elt e)
        | None => raise IndexError
        end
    | _ =>
        py_assert (idx =? 0) ;;;
        name_op_map_get name_truncated
    end
  else
    name_op_map_get name.

(** [tf_node.op == 'NoOp' and tf_node.name == 'init'] *)
Definition is_init (tf_node : NodeDef AttrValue) : bool :=
  String.eqb (op tf_node) "NoOp" && String.eqb (name tf_node) "init".

(** The body of the first loop of [parse_graph_def]. *)
Definition pass1_body (tf_node : NodeDef AttrValue) : Py W unit :=
  if is_init tf_node then
    let assign_op_names : gset string :=
      list_to_set (map remove_tf_name_prefix (input tf_node)) in
    set_self (fun s =>
      let b := ops_bridge s in
      mkTFImporter (name_op_map s)
                   (mkOpsBridge (init_assign_op_names b ∪ assign_op_names)
                                (calls b))
                   (init_ops s) (graph_def s))
  else ret tt.

(** The body of the second loop of [parse_graph_def]. *)
Definition pass2_body (tf_node : NodeDef AttrValue) : Py W unit :=
  input_ops <- map_py get_op_handle_by_name (input tf_node) ;;
  output_op <- (if existsb is_none input_ops then ret PNone
                else ops_bridge_call tf_node input_ops) ;;
  let output_list :=
    match output_op with
    | PTuple elts => elts
    | POp l => [Some l]
    | PNone => [None]
    end in
  output_list <- map_py post_process_op output_list ;;
  output_op <- (if (1 <? length output_list)%nat then
                  ret (PTuple output_list)
                else
                  match output_list with
                  | e :: _ => ret (of_elt e)
                  | [] => raise IndexError
                  end) ;;
  (if is_init tf_node then
     set_self (fun s =>
       mkTFImporter (name_op_map s) (ops_bridge s)
                    (init_ops s ++ [output_op]) (graph_def s))
   else ret tt) ;;;
  name_op_map_set (name tf_node) output_op.

(** [TFImporter.parse_graph_def]; printing each node when [verbose] is
    set changes neither the importer nor the heap and is left out. *)
Definition parse_graph_def (nodes : list (NodeDef AttrValue)) : Py W unit :=
  set_self (fun s =>
    mkTFImporter (name_op_map s) (ops_bridge s) (init_ops s) (Some nodes)) ;;;
  for_each pass1_body nodes ;;;
  for_each pass2_body nodes.

(** [TFImporter.get_op_handle] on one node and on a list of nodes. *)
Definition get_op_handle (tf_op : NodeDef AttrValue) : Py W pyval :=
  get_op_handle_by_name (name tf_op).

Definition get_op_handle_list
    (tf_op : list (NodeDef AttrValue)) : Py W (list pyval) :=
  map_py (fun n => get_op_handle_by_name (name n)) tf_op.

End Importer.

(** ** The audit of unimplemented ops *)

(** The order [sorted] puts Python strings in: lexicographic, byte by
    byte. *)
Definition str_le (a b : string) : Prop := String.leb a b = true.

Global Instance str_le_dec : RelDecision str_le.
Proof. intros a b. unfold str_le. apply _. Defined.

(** [sorted(l)] for a list of strings *)
Definition sorted (l : list string) : list string := merge_sort str_le l.

Section Audit.

(** What [open(pb_path)] and [f.readlines()] come to for each path: the
    lines of the file, line ends kept, or the exception raised when the
    file cannot be opened or cannot be read as text. *)
Variable read_lines : string -> exn + list string.

(** [dir(ob)] and the keys of [ob.__dict__] for a new bridge object [ob];
    the class [OpsBridge] is missing from the sources. *)
Variable dir_ob : list string.
Variable ob_dict : list string.

(** The loop over the stripped lines of the file that collects
    [required_ops]. *)
Fixpoint required_ops_loop
    (lines : list string) (required_ops : gset string) : exn + gset string :=
  match lines with
  | [] => inr required_ops
  | line :: rest =>
      if String.eqb (PyStr.take 3 line) "op:" then
        match PyStr.split " " line !! 1%nat with
        | Some field =>
            let op_name := PyStr.slice_1_m1 field in
            required_ops_loop rest (required_ops ∪ {[op_name]})
        | None => inl IndexError
        end
      else required_ops_loop rest required_ops
  end.

(** The names of [dir(ob)] that do not start with an underscore and are
    not instance attributes. *)
Definition supported_ops : gset string :=
  list_to_set
    (filter (fun name =>
               PyStr.take 1 name ≠ "_" ∧ name ∉ ob_dict)
            dir_ob).

(** [TFImporter._get_unimplemented_ops].  It reads no attribute of the
    importer and changes none. *)
Definition _get_unimplemented_ops (pb_path : string) : exn + list string :=
  match read_lines pb_path with
  | inl e => inl e
  | inr lines =>
      let lines := map PyStr.strip lines in
      match required_ops_loop lines ∅ with
      | inr required_ops =>
          let unimplemented_ops := required_ops ∖ supported_ops in
          inr (sorted (elements unimplemented_ops))
      | inl e => inl e
      end
  end.

End Audit.

(** The line that the text encoding of a graph has for a node of op type
    [t]: the field name, one space, and the type between double quotes. *)
Definition op_line (t : string) : string :=
  "op: " ++ String (ascii_of_nat 34) (t ++ String (ascii_of_nat 34) "").

(** The lines of a file that [_get_unimplemented_ops] takes for op
    lines. *)
Definition op_lines (lines : list string) : list string :=
  filter (fun line => PyStr.take 3 line = "op:") (map PyStr.strip lines).


(** ** Notions the statements use *)

(** The base-name of a reference: the key [get_op_handle_by_name] looks
    up in the table. *)
Definition base_name (ref : string) : string :=
  nth 0 (PyStr.split ":" (remove_tf_name_prefix ref)) "".

(** A reference with a malformed suffix: more than one colon, or one colon
    and no integer after it. *)
Definition malformed (ref : string) : Prop :=
  let name_splits := PyStr.split ":" (remove_tf_name_prefix ref) in
  (2 < length name_splits)%nat ∨
  (length name_splits = 2%nat ∧ PyStr.int (nth 1 name_splits "") = None).

(** The [Op] objects of a value. *)
Definition ops_of (v : pyval) : list loc :=
  match v with
  | PNone => []
  | POp l => [l]
  | PTuple elts => omap id elts
  end.

(** The arity of a value: [None], one [Op], or a tuple, with its length
    and which of its elements are [None]. *)
Inductive shape :=
| SNone
| SOp
| STuple (nones : list bool).

Global Instance shape_eq_dec : EqDecision shape.
Proof. solve_decision. Defined.

Definition elt_is_none (e : option loc) : bool :=
  match e with
  | Some _ => false
  | None => true
  end.

Definition shape_of (v : pyval) : shape :=
  match v with
  | PNone => SNone
  | POp _ => SOp
  | PTuple elts => STuple (map elt_is_none elts)
  end.

(** What a bridge call comes to, as far as arity goes: [None] when it
    raises. *)
Definition bridge_shape (r : bridge_outcome) : option shape :=
  match r with
  | BReturn v _ => Some (shape_of v)
  | BRaise _ _ => None
  end.

(** A bridge decides whether it raises, and the arity of what it returns,
    from the assignment set, the node and the arities of the inputs. *)
Definition shape_deterministic {AttrValue : Type}
    (bridge : gset string -> NodeDef AttrValue -> list pyval -> heap ->
              bridge_outcome) : Prop :=
  forall a n ins1 ins2 h1 h2,
    map shape_of ins1 = map shape_of ins2 ->
    bridge_shape (bridge a n ins1 h1) = bridge_shape (bridge a n ins2 h2).

(** Two importers whose tables have the same keys and, key by key, entries
    of the same arity, and whose bridges hold the same assignment set. *)
Definition same_shape {AttrValue : Type} (w1 w2 : world AttrValue) : Prop :=
  shape_of <$> name_op_map (self w1) = shape_of <$> name_op_map (self w2) ∧
  init_assign_op_names (ops_bridge (self w1))
  = init_assign_op_names (ops_bridge (self w2)).

(** The importer after [self.name_op_map[tf_node.name] = v] for the node
    [n], with [v] appended to [init_ops] when [n] is the initializer
    node. *)
Definition recorded {AttrValue : Type}
    (n : NodeDef AttrValue) (v : pyval) (s : TFImporter AttrValue) :
    TFImporter AttrValue :=
  mkTFImporter (<[name n := v]> (name_op_map s)) (ops_bridge s)
               (if is_init n then init_ops s ++ [v] else init_ops s)
               (graph_def s).

(** The importer after its bridge has been called for [n] with
    [input_ops]. *)
Definition logged {AttrValue : Type}
    (n : NodeDef AttrValue) (input_ops : list pyval)
    (s : TFImporter AttrValue) : TFImporter AttrValue :=
  mkTFImporter (name_op_map s)
    (mkOpsBridge (init_assign_op_names (ops_bridge s))
                 (calls (ops_bridge s) ++ [(n, input_ops)]))
    (init_ops s) (graph_def s).

(** What a bridge result other than the empty tuple is converted back to
    after post-processing. *)
Definition stored (v : pyval) : pyval :=
  match v with
  | PTuple [e] => of_elt e
  | _ => v
  end.

(** The arity of what a resolution comes to, and of what the resolution of
    a list of references comes to: [None] when it raises. *)
Definition res_shape {AttrValue : Type}
    (r : outcome (world AttrValue) pyval) : option shape :=
  match r with
  | Ok v _ => Some (shape_of v)
  | Raise _ _ => None
  end.

Definition res_shapes {AttrValue : Type}
    (r : outcome (world AttrValue) (list pyval)) : option (list shape) :=
  match r with
  | Ok vs _ => Some (map shape_of vs)
  | Raise _ _ => None
  end.

(** ** A small bridge and importer for worked examples *)

(** A bridge over nodes without attributes. The new [Op] objects sit at
    the locations [l] and [S l], for [l] the length of the node's name, and
    are named after the node; [BroadcastGradientArgs] has two outputs,
    [Shape] returns a tuple of one, [Const] and [Add] return one [Op], and
    any other op type is ignored ([None]). *)
Definition example_bridge
    (a : gset string) (n : NodeDef unit) (input_ops : list pyval) (h : heap) :
    bridge_outcome :=
  let l := String.length (name n) in
  if String.eqb (op n) "BroadcastGradientArgs" then
    BReturn (PTuple [Some l; Some (S l)]) (<[l := name n]> (<[S l := name n]> h))
  else if String.eqb (op n) "Shape" then
    BReturn (PTuple [Some l]) (<[l := name n]> h)
  else if String.eqb (op n) "Const" || String.eqb (op n) "Add" then
    BReturn (POp l) (<[l := name n]> h)
  else BReturn PNone h.

(** A node without attributes. *)
Definition node (name op : string) (input : list string) : NodeDef unit :=
  mkNodeDef name op input ∅.

(** An importer with the given table, as [reset] leaves the other
    attributes, over a heap of unnamed objects. *)
Definition importer_with (table : gmap string pyval) : world unit :=
  mkWorld (mkTFImporter table OpsBridge_new [] None) (fun _ => "").

(** The lines of a file in the text encoding, with two nodes, of the op
    types [FancyNewOp] and [Add]. *)
Definition newline : string := String (ascii_of_nat 10) "".

Definition example_file : list string :=
  [ "node {" ++ newline;
    "  " ++ op_line "FancyNewOp" ++ newline;
    "}" ++ newline;
    "node {" ++ newline;
    "  " ++ op_line "Add" ++ newline;
    "  input: x" ++ newline;
    "}" ++ newline ].

(** A file system with three files in the text encoding: the example
    file, the example file written twice, and a file with one node, of the
    op type [My Op]; no other path can be opened. *)
Definition example_files (pb_path : string) : exn + list string :=
  if String.eqb pb_path "graph.pbtxt" then inr example_file
  else if String.eqb pb_path "twice.pbtxt" then
    inr (example_file ++ example_file)%list
  else if String.eqb pb_path "spaced.pbtxt" then
    inr [ "node {" ++ newline;
          "  " ++ op_line "My Op" ++ newline;
          "}" ++ newline ]
  else inl (OtherError "IOError").

(** What [dir(ob)] and [ob.__dict__] hold in the examples. *)
Definition example_dir : list string :=
  ["Add"; "Const"; "__call__"; "init_assign_op_names"].

Definition example_dict : list string := ["init_assign_op_names"].

(** A bridge that hands its first input back for a node of the op type
    [Identity], and is the example bridge for the other op types. *)
Definition forwarding_bridge
    (a : gset string) (n : NodeDef unit) (input_ops : list pyval) (h : heap) :
    bridge_outcome :=
  if String.eqb (op n) "Identity" then
    match input_ops with
    | v :: _ => BReturn v h
    | [] => BRaise IndexError h
    end
  else example_bridge a n input_ops h.

(** ** Further notions the statements use *)

(** The names the first loop of [parse_graph_def] adds to the bridge's
    assignment set: the inputs, without the control prefix, of every node
    that is the initializer node. *)
Definition discovered {AttrValue : Type}
    (nodes : list (NodeDef AttrValue)) : gset string :=
  ⋃ (map (fun n => if is_init n
                   then list_to_set (map remove_tf_name_prefix (input n))
                   else ∅) nodes).

(** An entry that is not a tuple of fewer than two elements. *)
Definition no_short_tuple (v : pyval) : Prop :=
  match v with
  | PTuple elts => (2 <= length elts)%nat
  | _ => True
  end.

(** A reference without an output suffix: no colon after the control
    prefix is removed. *)
Definition plain (ref : string) : Prop :=
  PyStr.occurs ":" (remove_tf_name_prefix ref) = false.

(** A node list in declaration order with plain references: every input
    of a node is plain and names a key of the table [keys] or an earlier
    node. *)
Fixpoint declared_before_use {AttrValue : Type}
    (keys : gset string) (nodes : list (NodeDef AttrValue)) : Prop :=
  match nodes with
  | [] => True
  | n :: rest =>
      Forall (fun ref => plain ref /\ remove_tf_name_prefix ref ∈ keys)
             (input n) /\
      declared_before_use ({[name n]} ∪ keys) rest
  end.

(** A bridge that always returns, and never the empty tuple. *)
Definition bridge_returns {AttrValue : Type}
    (bridge : gset string -> NodeDef AttrValue -> list pyval -> heap ->
              bridge_outcome) : Prop :=
  forall a n ins h,
    exists v h', bridge a n ins h = BReturn v h' /\ v ≠ PTuple [].

(** What a computation returns: [None] when it raises. *)
Definition returned {W A : Type} (r : outcome W A) : option A :=
  match r with
  | Ok a _ => Some a
  | Raise _ _ => None
  end.

(** The op type [_get_unimplemented_ops] reads off a stripped line:
    [line.split(' ')[1][1:-1]]; [None] stands for [IndexError]. *)
Definition op_name_of (line : string) : option string :=
  PyStr.slice_1_m1 <$> (PyStr.split " " line !! 1%nat).

(** The world with the entry [v] written under [key]. *)
Definition with_entry {AttrValue : Type}
    (key : string) (v : pyval) (w : world AttrValue) : world AttrValue :=
  mkWorld (mkTFImporter (<[key := v]> (name_op_map (self w)))
                        (ops_bridge (self w)) (init_ops (self w))
                        (graph_def (self w)))
          (names w).

(** What one turn of the second loop of [parse_graph_def] comes to for the
    node [n] from the world [w], case by case. *)
Inductive pass2_case {AttrValue : Type}
    (bridge : gset string -> NodeDef AttrValue -> list pyval -> heap ->
              bridge_outcome)
    (n : NodeDef AttrValue) (w : world AttrValue) :
    outcome (world AttrValue) unit -> Prop :=
| case_input_raises e :
    map_py get_op_handle_by_name (input n) w = Raise e w ->
    pass2_case bridge n w (Raise e w)
| case_input_missing input_ops :
    map_py get_op_handle_by_name (input n) w = Ok input_ops w ->
    PNone ∈ input_ops ->
    pass2_case bridge n w
      (Ok tt (mkWorld (recorded n PNone (self w)) (names w)))
| case_bridge_raises input_ops e h :
    map_py get_op_handle_by_name (input n) w = Ok input_ops w ->
    PNone ∉ input_ops ->
    bridge (init_assign_op_names (ops_bridge (self w))) n input_ops (names w)
      = BRaise e h ->
    pass2_case bridge n w
      (Raise e (mkWorld (logged n input_ops (self w)) h))
| case_empty_tuple input_ops h :
    map_py get_op_handle_by_name (input n) w = Ok input_ops w ->
    PNone ∉ input_ops ->
    bridge (init_assign_op_names (ops_bridge (self w))) n input_ops (names w)
      = BReturn (PTuple []) h ->
    pass2_case bridge n w
      (Raise IndexError (mkWorld (logged n input_ops (self w)) h))
| case_stored input_ops v h h' :
    map_py get_op_handle_by_name (input n) w = Ok input_ops w ->
    PNone ∉ input_ops ->
    bridge (init_assign_op_names (ops_bridge (self w))) n input_ops (names w)
      = BReturn v h ->
    v ≠ PTuple [] ->
    (forall l, l ∈ ops_of v -> h' l = PyStr.replace "/" "_" (h l)) ->
    (forall l, l ∉ ops_of v -> h' l = h l) ->
    pass2_case bridge n w
      (Ok tt (mkWorld (recorded n (stored v) (logged n input_ops (self w)))
                      h')).

(** * Properties *)

(** ** Facts about the string primitives *)

Section StringFacts.

Variable sep : ascii.

Lemma split_not_nil (s : string) : PyStr.split sep s ≠ [].
Proof.
  induction s as [|c s IH]; simpl; [done|].
  destruct (Ascii.eqb c sep); [done|].
  destruct (PyStr.split sep s); done.
Qed.

Lemma split_single_iff (s : string) :
  PyStr.split sep s = [s] <-> PyStr.occurs sep s = false.
Proof.
  induction s as [|c s IH]; simpl; [done|].
  destruct (Ascii.eqb c sep) eqn:E; simpl.
  - split; [|done]. intros H. injection H as H1 H2.
    by apply split_not_nil in H2.
  - pose proof (split_not_nil s) as Hn.
    destruct (PyStr.split sep s) as [|p ps] eqn:Es; [done|].
    rewrite <- IH. split.
    + intros H. by simplify_eq.
    + intros H. by simplify_eq.
Qed.

Lemma split_app_sep (a b : string) :
  PyStr.split sep a = [a] ->
  PyStr.split sep (a ++ String sep b) = a :: PyStr.split sep b.
Proof.
  induction a as [|c a IH]; simpl.
  - intros _. by rewrite Ascii.eqb_refl.
  - destruct (Ascii.eqb c sep) eqn:E.
    + intros H. injection H as H1 H2. by apply split_not_nil in H2.
    + pose proof (split_not_nil a) as Hn.
      destruct (PyStr.split sep a) as [|p ps] eqn:Es; [done|].
      intros H. simplify_eq. by rewrite IH.
Qed.

End StringFacts.

Lemma replace_idemp (s : string) :
  PyStr.replace "/" "_" (PyStr.replace "/" "_" s) = PyStr.replace "/" "_" s.
Proof.
  induction s as [|c s IH]; simpl; [done|].
  rewrite IH. f_equal.
  destruct (Ascii.eqb c "/") eqn:E; [done|]. by rewrite E.
Qed.

Lemma replace_no_slash (s : string) :
  PyStr.occurs "/" (PyStr.replace "/" "_" s) = false.
Proof.
  induction s as [|c s IH]; simpl; [done|].
  rewrite IH. destruct (Ascii.eqb c "/") eqn:E; simpl; [done|]. by rewrite E.
Qed.

Lemma remove_prefix_app (b s : string) :
  remove_tf_name_prefix (b ++ String ":" s)
  = remove_tf_name_prefix b ++ String ":" s.
Proof.
  destruct b as [|c b]; simpl; [done|].
  by destruct (Ascii.eqb c "^").
Qed.

Lemma remove_prefix_no_colon (b : string) :
  PyStr.occurs ":" b = false -> PyStr.occurs ":" (remove_tf_name_prefix b) = false.
Proof.
  destruct b as [|c b]; simpl; [done|].
  destruct (Ascii.eqb c "^") eqn:E; simpl; [|done].
  intros H. by apply orb_false_iff in H as [_ H].
Qed.

(** [int] accepts no string with a colon in it. *)
Lemma lstrip_occurs (space : ascii -> bool) (s : string) :
  space ":"%char = false ->
  PyStr.occurs ":" s = true -> PyStr.occurs ":" (PyStr.lstrip space s) = true.
Proof.
  intros Hsp. induction s as [|c s IH]; simpl; [done|].
  destruct (space c) eqn:E; [|done].
  destruct (Ascii.eqb c ":") eqn:Ec; simpl; [|done].
  apply Ascii.eqb_eq in Ec. subst c. congruence.
Qed.

Lemma rstrip_occurs (space : ascii -> bool) (s : string) :
  space ":"%char = false ->
  PyStr.occurs ":" s = true -> PyStr.occurs ":" (PyStr.rstrip space s) = true.
Proof.
  intros Hsp. induction s as [|c s IH]; simpl; [done|].
  destruct (Ascii.eqb c ":") eqn:Ec; simpl.
  - apply Ascii.eqb_eq in Ec. subst c. intros _. rewrite Hsp.
    destruct (PyStr.rstrip space s); done.
  - intros H. specialize (IH H).
    destruct (PyStr.rstrip space s); simpl in *; [done|].
    by rewrite Ec.
Qed.

Lemma parse_digits_occurs (s : string) (acc : Z) (after_digit : bool) :
  PyStr.occurs ":" s = true -> PyStr.parse_digits acc after_digit s = None.
Proof.
  revert acc after_digit.
  induction s as [|c s IH]; simpl; intros acc after_digit; [done|].
  destruct (Ascii.eqb c ":") eqn:Ec; simpl.
  - apply Ascii.eqb_eq in Ec. subst c. done.
  - intros H. destruct (PyStr.digit_val c); [by apply IH|].
    destruct (Ascii.eqb c "_" && after_digit); [by apply IH|done].
Qed.

Lemma int_no_colon (s : string) (k : Z) :
  PyStr.int s = Some k -> PyStr.occurs ":" s = false.
Proof.
  intros H. destruct (PyStr.occurs ":" s) eqn:E; [|done].
  exfalso.
  apply (lstrip_occurs PyStr.is_int_space) in E; [|done].
  apply (rstrip_occurs PyStr.is_int_space) in E; [|done].
  unfold PyStr.int in H.
  destruct (PyStr.rstrip _ (PyStr.lstrip _ s)) as [|c r]; [done|].
  simpl in E.
  destruct (Ascii.eqb c ":") eqn:Ec.
  - apply Ascii.eqb_eq in Ec. subst c. simpl in H. done.
  - simpl in E.
    destruct (Ascii.eqb c "-").
    { by rewrite parse_digits_occurs in H. }
    destruct (Ascii.eqb c "+").
    { by rewrite parse_digits_occurs in H. }
    rewrite parse_digits_occurs in H; [done|]. simpl. by rewrite Ec.
Qed.

(** ** Name resolution *)

Ltac py_unfold :=
  unfold get_op_handle_by_name, name_op_map_get, name_op_map_set, set_self,
         py_assert, bind, ret, raise in *.

Section ResolverFacts.

Context {AttrValue : Type}.
Implicit Types (w : world AttrValue) (ref : string).

Lemma get_op_handle_by_name_final ref w :
  final (get_op_handle_by_name ref w) = w.
Proof. py_unfold. repeat case_match; simplify_eq/=; done. Qed.

Lemma get_unsuffixed ref w :
  PyStr.occurs ":" (remove_tf_name_prefix ref) = false ->
  get_op_handle_by_name ref w = name_op_map_get (remove_tf_name_prefix ref) w.
Proof.
  intros H. apply split_single_iff in H.
  unfold get_op_handle_by_name. by rewrite H.
Qed.

Lemma get_suffixed ref w b s :
  PyStr.split ":" (remove_tf_name_prefix ref) = [b; s] ->
  get_op_handle_by_name ref w =
    match PyStr.int s with
    | None => Raise ValueError w
    | Some idx =>
        match name_op_map (self w) !! b with
        | None => Raise (KeyError b) w
        | Some (PTuple elts) =>
            match PyStr.index elts idx with
            | Some e => Ok (of_elt e) w
            | None => Raise IndexError w
            end
        | Some v => if idx =? 0 then Ok v w else Raise AssertionError w
        end
    end.
Proof.
  intros H. unfold get_op_handle_by_name. rewrite H. simpl.
  py_unfold. simpl.
  destruct (PyStr.int s) as [idx|]; [|done].
  destruct (name_op_map (self w) !! b) as [[| |elts]|] eqn:E; try done.
  - destruct (idx =? 0); [by rewrite E|done].
  - destruct (idx =? 0); [by rewrite E|done].
  - by destruct (PyStr.index elts idx).
Qed.

Lemma get_too_many ref w :
  (2 < length (PyStr.split ":" (remove_tf_name_prefix ref)))%nat ->
  get_op_handle_by_name ref w = Raise AssertionError w.
Proof.
  intros H. unfold get_op_handle_by_name.
  destruct (PyStr.split ":" (remove_tf_name_prefix ref)) as [|a [|b [|c l]]];
    simpl in *; try lia.
  done.
Qed.

Lemma map_py_get_final (refs : list string) w :
  final (map_py get_op_handle_by_name refs w) = w.
Proof.
  induction refs as [|r refs IH]; simpl; [done|].
  unfold bind. pose proof (get_op_handle_by_name_final r w) as F.
  destruct (get_op_handle_by_name r w) as [v w1|e w1]; simpl in F; subst w1;
    [|done].
  destruct (map_py get_op_handle_by_name refs w) as [vs w2|e w2]; simpl in *;
    done.
Qed.

Lemma map_py_get_raise (refs : list string) ref e w :
  ref ∈ refs ->
  get_op_handle_by_name ref w = Raise e w ->
  exists e', map_py get_op_handle_by_name refs w = Raise e' w.
Proof.
  intros Hin Hr. induction refs as [|r refs IH]; [by apply elem_of_nil in Hin|].
  simpl. unfold bind.
  pose proof (get_op_handle_by_name_final r w) as F.
  destruct (get_op_handle_by_name r w) as [v w1|e1 w1] eqn:E; simpl in F;
    subst w1; [|by eexists].
  apply elem_of_cons in Hin as [->|Hin]; [congruence|].
  destruct (IH Hin) as [e' ->]. by eexists.
Qed.

(** Resolving a list of references that all succeed. *)
Lemma map_py_get_Ok (refs : list string) w vs w' :
  map_py get_op_handle_by_name refs w = Ok vs w' -> w' = w.
Proof.
  intros H. pose proof (map_py_get_final refs w) as F. by rewrite H in F.
Qed.

End ResolverFacts.

(** ** One node of the construction pass *)

Section PassFacts.

Context {AttrValue : Type}.
Variable bridge :
  gset string -> NodeDef AttrValue -> list pyval -> heap -> bridge_outcome.
Implicit Types (w : world AttrValue) (n : NodeDef AttrValue).

(** Post-processing a list of outputs returns the same objects and
    rewrites the name of each of them. *)
Lemma map_py_post_process (elts : list (option loc)) w :
  exists h,
    map_py post_process_op elts w = Ok elts (mkWorld (self w) h) /\
    (forall l, Some l ∈ elts ->
               h l = PyStr.replace "/" "_" (names w l)) /\
    (forall l, Some l ∉ elts -> h l = names w l).
Proof.
  revert w. induction elts as [|e elts IH]; intros w.
  - exists (names w). split; [by destruct w|].
    split; [intros l H; by apply elem_of_nil in H|done].
  - simpl. unfold bind. destruct e as [l0|]; simpl.
    + destruct (IH (mkWorld (self w)
                (<[l0 := PyStr.replace "/" "_" (names w l0)]> (names w))))
        as (h & -> & Hin & Hout).
      simpl in *. exists h. split; [done|]. split.
      * intros l Hl. destruct (decide (Some l ∈ elts)) as [Hi|Hi].
        -- rewrite (Hin l Hi). destruct (decide (l0 = l)) as [->|Hne].
           ++ by rewrite fn_lookup_insert, replace_idemp.
           ++ by rewrite fn_lookup_insert_ne.
        -- apply elem_of_cons in Hl as [[= ->]|Hl]; [|done].
           rewrite (Hout l0 Hi). by rewrite fn_lookup_insert.
      * intros l Hl. apply not_elem_of_cons in Hl as [Hne Hl].
        rewrite (Hout l Hl). rewrite fn_lookup_insert_ne; [done|congruence].
    + destruct (IH w) as (h & -> & Hin & Hout). unfold ret.
      exists h. split; [done|]. split.
      * intros l Hl. apply elem_of_cons in Hl as [Hl|Hl]; [done|]. by apply Hin.
      * intros l Hl. apply not_elem_of_cons in Hl as [_ Hl]. by apply Hout.
Qed.

Lemma pass2_body_missing n w input_ops :
  map_py get_op_handle_by_name (input n) w = Ok input_ops w ->
  existsb is_none input_ops = true ->
  pass2_body bridge n w = Ok tt (mkWorld (recorded n PNone (self w)) (names w)).
Proof.
  intros Hin Hnone. unfold pass2_body, bind. rewrite Hin, Hnone. simpl.
  unfold bind, ret, name_op_map_set, set_self, recorded. simpl.
  destruct (is_init n); done.
Qed.

Lemma pass2_body_return n w input_ops v h :
  map_py get_op_handle_by_name (input n) w = Ok input_ops w ->
  existsb is_none input_ops = false ->
  bridge (init_assign_op_names (ops_bridge (self w))) n input_ops (names w)
    = BReturn v h ->
  v ≠ PTuple [] ->
  exists h',
    pass2_body bridge n w
      = Ok tt (mkWorld (recorded n (stored v) (logged n input_ops (self w))) h') /\
    (forall l, l ∈ ops_of v -> h' l = PyStr.replace "/" "_" (h l)) /\
    (forall l, l ∉ ops_of v -> h' l = h l).
Proof.
  intros Hin Hnone Hb Hv. unfold pass2_body, bind at 1. rewrite Hin, Hnone.
  unfold bind at 1, ops_bridge_call. rewrite Hb.
  set (w1 := mkWorld _ h).
  set (elts := match v with PTuple elts => elts | POp l => [Some l]
                       | PNone => [None] end).
  destruct (map_py_post_process elts w1) as (h' & Hpp & Hi & Ho).
  exists h'. unfold bind at 1. rewrite Hpp. simpl. split.
  - destruct v as [| l |[|e [|e' l']]]; simpl in *; try done;
      unfold bind, ret, name_op_map_set, set_self, recorded, logged; simpl;
      destruct (is_init n); done.
  - split; intros l Hl.
    + apply Hi. destruct v as [| l0 | l0]; simpl in *.
      * by apply elem_of_nil in Hl.
      * apply list_elem_of_singleton in Hl. subst. apply list_elem_of_singleton. done.
      * apply list_elem_of_omap in Hl as (x & Hx & Hid). simpl in Hid. by subst.
    + apply Ho. intros Hc. apply Hl. destruct v as [| l0 | l0]; simpl in *.
      * apply list_elem_of_singleton in Hc. done.
      * apply list_elem_of_singleton in Hc. simplify_eq. by apply list_elem_of_singleton.
      * apply list_elem_of_omap. by exists (Some l).
Qed.

Lemma pass2_body_bridge_raise n w input_ops e h :
  map_py get_op_handle_by_name (input n) w = Ok input_ops w ->
  existsb is_none input_ops = false ->
  bridge (init_assign_op_names (ops_bridge (self w))) n input_ops (names w)
    = BRaise e h ->
  pass2_body bridge n w = Raise e (mkWorld (logged n input_ops (self w)) h).
Proof.
  intros Hin Hnone Hb. unfold pass2_body, bind at 1. rewrite Hin, Hnone.
  unfold bind at 1, ops_bridge_call. by rewrite Hb.
Qed.

Lemma pass2_body_empty_tuple n w input_ops h :
  map_py get_op_handle_by_name (input n) w = Ok input_ops w ->
  existsb is_none input_ops = false ->
  bridge (init_assign_op_names (ops_bridge (self w))) n input_ops (names w)
    = BReturn (PTuple []) h ->
  pass2_body bridge n w
    = Raise IndexError (mkWorld (logged n input_ops (self w)) h).
Proof.
  intros Hin Hnone Hb. unfold pass2_body, bind at 1. rewrite Hin, Hnone.
  unfold bind at 1, ops_bridge_call. by rewrite Hb.
Qed.

Lemma pass2_body_input_raise n w e w' :
  map_py get_op_handle_by_name (input n) w = Raise e w' ->
  pass2_body bridge n w = Raise e w.
Proof.
  intros Hin. pose proof (map_py_get_final (input n) w) as F.
  rewrite Hin in F. simpl in F. subst w'.
  unfold pass2_body, bind. by rewrite Hin.
Qed.

End PassFacts.

(** ** The two loops of [parse_graph_def] *)

Lemma split_singleton (sep : ascii) (s a : string) :
  PyStr.split sep s = [a] -> a = s.
Proof.
  revert a. induction s as [|c s IH]; simpl; intros a H; [by simplify_eq|].
  destruct (Ascii.eqb c sep).
  - injection H as _ H. by apply split_not_nil in H.
  - pose proof (split_not_nil sep s) as Hn.
    destruct (PyStr.split sep s) as [|p ps]; [done|].
    simplify_eq. by rewrite (IH p eq_refl).
Qed.

Section LoopFacts.

Context {AttrValue : Type}.
Variable bridge :
  gset string -> NodeDef AttrValue -> list pyval -> heap -> bridge_outcome.
Implicit Types (w : world AttrValue) (n : NodeDef AttrValue).

Lemma for_each_app {A} (body : A -> Py (world AttrValue) unit) l1 l2 w :
  for_each body (l1 ++ l2) w =
    match for_each body l1 w with
    | Ok _ w1 => for_each body l2 w1
    | Raise e w1 => Raise e w1
    end.
Proof.
  revert w. induction l1 as [|x l1 IH]; intros w; simpl; [done|].
  unfold bind. destruct (body x w); [apply IH|done].
Qed.

(** A reference whose base-name is not a key of the table does not
    resolve. *)
Lemma get_absent (ref : string) w :
  name_op_map (self w) !! base_name ref = None ->
  exists e, get_op_handle_by_name ref w = Raise e w /\
    (e = KeyError (base_name ref) \/ e = AssertionError \/ e = ValueError).
Proof.
  unfold base_name. intros Hk.
  destruct (PyStr.split ":" (remove_tf_name_prefix ref))
    as [|a [|s [|x l]]] eqn:Es.
  - by apply split_not_nil in Es.
  - pose proof (split_singleton _ _ _ Es) as ->. simpl in Hk.
    rewrite get_unsuffixed by (by apply split_single_iff).
    unfold name_op_map_get. rewrite Hk. eauto.
  - rewrite (get_suffixed _ _ _ _ Es). simpl in Hk. rewrite Hk.
    destruct (PyStr.int s); eauto.
  - rewrite get_too_many by (rewrite Es; simpl; lia). eauto.
Qed.

Lemma get_malformed (ref : string) w :
  malformed ref ->
  exists e, get_op_handle_by_name ref w = Raise e w /\
    (e = AssertionError \/ e = ValueError).
Proof.
  unfold malformed. intros [H|[H1 H2]].
  - rewrite get_too_many by done. eauto.
  - destruct (PyStr.split ":" (remove_tf_name_prefix ref))
      as [|a [|s [|x l]]] eqn:Es; simpl in H1; try lia.
    rewrite (get_suffixed _ _ _ _ Es). simpl in H2. rewrite H2. eauto.
Qed.

(** A node does not get past an input that does not resolve. *)
Lemma pass2_body_bad_input n (ref : string) e w :
  ref ∈ input n ->
  get_op_handle_by_name ref w = Raise e w ->
  exists e', pass2_body bridge n w = Raise e' w.
Proof.
  intros Hin Hr. destruct (map_py_get_raise _ _ _ _ Hin Hr) as [e' He].
  exists e'. unfold pass2_body, bind. by rewrite He.
Qed.

(** What [pass2_body] leaves in the table and in the bridge's set. *)
Lemma pass2_body_table n w :
  match pass2_body bridge n w with
  | Ok _ w' =>
      (exists v, name_op_map (self w') = <[name n := v]> (name_op_map (self w))) /\
      init_assign_op_names (ops_bridge (self w'))
      = init_assign_op_names (ops_bridge (self w))
  | Raise _ w' =>
      name_op_map (self w') = name_op_map (self w) /\
      init_assign_op_names (ops_bridge (self w'))
      = init_assign_op_names (ops_bridge (self w))
  end.
Proof.
  destruct (map_py get_op_handle_by_name (input n) w) as [ins w1|e w1] eqn:Ei.
  - pose proof (map_py_get_Ok _ _ _ _ Ei) as ->.
    destruct (existsb is_none ins) eqn:En.
    { rewrite (pass2_body_missing bridge n w ins Ei En). simpl. eauto. }
    destruct (bridge (init_assign_op_names (ops_bridge (self w))) n ins (names w))
      as [v h|e h] eqn:Eb.
    + destruct (decide (v = PTuple [])) as [->|Hv].
      * by rewrite (pass2_body_empty_tuple bridge n w ins h Ei En Eb).
      * destruct (pass2_body_return bridge n w ins v h Ei En Eb Hv)
          as (h' & -> & _). simpl. eauto.
    + by rewrite (pass2_body_bridge_raise bridge n w ins e h Ei En Eb).
  - by rewrite (pass2_body_input_raise bridge n w e w1 Ei).
Qed.

Lemma for_each_pass2_dom_Ok (nodes : list (NodeDef AttrValue)) w w' :
  for_each (pass2_body bridge) nodes w = Ok tt w' ->
  dom (name_op_map (self w'))
  = dom (name_op_map (self w)) ∪ list_to_set (map name nodes).
Proof.
  revert w. induction nodes as [|n nodes IH]; intros w; cbn [for_each map].
  - unfold ret. intros [= ->].
    by rewrite list_to_set_nil, (right_id_L ∅ (∪)).
  - unfold bind. pose proof (pass2_body_table n w) as T.
    destruct (pass2_body bridge n w) as [[] w1|e w1]; [|done].
    destruct T as [[v Hv] _]. intros H. rewrite (IH _ H), Hv, dom_insert_L.
    rewrite list_to_set_cons, (comm_L (∪) {[name n]}).
    by rewrite <- (assoc_L (∪)).
Qed.

(** The first loop only adds to the bridge's assignment set. *)
Lemma for_each_pass1 (nodes : list (NodeDef AttrValue)) w :
  exists w1,
    for_each pass1_body nodes w = Ok tt w1 /\
    name_op_map (self w1) = name_op_map (self w) /\
    names w1 = names w /\
    calls (ops_bridge (self w1)) = calls (ops_bridge (self w)) /\
    init_ops (self w1) = init_ops (self w) /\
    graph_def (self w1) = graph_def (self w).
Proof.
  revert w. induction nodes as [|n nodes IH]; intros w; simpl.
  - by exists w.
  - unfold bind, pass1_body. destruct (is_init n).
    + unfold set_self. edestruct IH as (w1 & -> & ? & ? & ? & ? & ?).
      exists w1. simpl in *. done.
    + unfold ret. apply IH.
Qed.

(** An input that cannot resolve once the nodes before its node are
    processed makes the construction pass raise. *)
Lemma for_each_pass2_raises (pre post : list (NodeDef AttrValue)) n
    (ref : string) w :
  ref ∈ input n ->
  (forall w1, for_each (pass2_body bridge) pre w = Ok tt w1 ->
              exists e, get_op_handle_by_name ref w1 = Raise e w1) ->
  raised (for_each (pass2_body bridge) (pre ++ n :: post) w) ≠ None.
Proof.
  intros Hin Hr. rewrite for_each_app.
  destruct (for_each (pass2_body bridge) pre w) as [[] w1|e w1] eqn:E;
    [|done].
  destruct (Hr w1 eq_refl) as [e He].
  destruct (pass2_body_bad_input n ref e w1 Hin He) as [e' He'].
  simpl. unfold bind. by rewrite He'.
Qed.

Lemma parse_graph_def_pass2 (nodes : list (NodeDef AttrValue)) w :
  exists w1,
    parse_graph_def bridge nodes w = for_each (pass2_body bridge) nodes w1 /\
    name_op_map (self w1) = name_op_map (self w) /\
    names w1 = names w /\
    calls (ops_bridge (self w1)) = calls (ops_bridge (self w)).
Proof.
  unfold parse_graph_def, bind, set_self.
  edestruct (for_each_pass1 nodes) as (w1 & -> & ? & ? & ? & ? & ?).
  exists w1. done.
Qed.

End LoopFacts.

(** ** Importers of the same shape *)

Lemma index_fmap {A B} (f : A -> B) (l : list A) (i : Z) :
  PyStr.index (map f l) i = f <$> PyStr.index l i.
Proof.
  unfold PyStr.index. rewrite length_map.
  repeat case_match; try done; apply (list_lookup_fmap f).
Qed.

Lemma shape_of_elt (e : option loc) :
  shape_of (of_elt e) = if elt_is_none e then SNone else SOp.
Proof. by destruct e. Qed.

Lemma is_none_shape (v : pyval) :
  is_none v = bool_decide (shape_of v = SNone).
Proof. by destruct v. Qed.

Lemma existsb_is_none_shape (l1 l2 : list pyval) :
  map shape_of l1 = map shape_of l2 ->
  existsb is_none l1 = existsb is_none l2.
Proof.
  revert l2. induction l1 as [|x l1 IH]; intros [|y l2] H; simplify_eq/=; [done|].
  rewrite !is_none_shape. f_equal; [|by apply IH]. by rewrite H.
Qed.

Lemma stored_shape (v1 v2 : pyval) :
  shape_of v1 = shape_of v2 -> shape_of (stored v1) = shape_of (stored v2).
Proof.
  destruct v1 as [| |[|e1 [|? ?]]], v2 as [| |[|e2 [|? ?]]]; simpl; try done.
  intros [= H]. rewrite !shape_of_elt. by rewrite H.
Qed.

Section Simulation.

Context {AttrValue : Type}.
Variable bridge :
  gset string -> NodeDef AttrValue -> list pyval -> heap -> bridge_outcome.
Hypothesis bridge_det : shape_deterministic bridge.
Implicit Types (w : world AttrValue) (n : NodeDef AttrValue).

Lemma same_shape_lookup w1 w2 (key : string) :
  same_shape w1 w2 ->
  shape_of <$> name_op_map (self w1) !! key
  = shape_of <$> name_op_map (self w2) !! key.
Proof. intros [H _]. by rewrite <- !lookup_fmap, H. Qed.

Lemma get_same_shape (ref : string) w1 w2 :
  same_shape w1 w2 ->
  res_shape (get_op_handle_by_name ref w1)
  = res_shape (get_op_handle_by_name ref w2).
Proof.
  intros Hs.
  destruct (PyStr.split ":" (remove_tf_name_prefix ref))
    as [|a [|s [|x l]]] eqn:Es.
  - by apply split_not_nil in Es.
  - rewrite !get_unsuffixed by (by apply split_single_iff; rewrite Es;
      f_equal; apply (split_singleton _ _ _ Es)).
    unfold name_op_map_get.
    pose proof (same_shape_lookup w1 w2 (remove_tf_name_prefix ref) Hs) as L.
    destruct (name_op_map (self w1) !! _), (name_op_map (self w2) !! _);
      simplify_eq/=; by f_equal.
  - rewrite !(get_suffixed _ _ _ _ Es).
    destruct (PyStr.int s) as [idx|]; [|done].
    pose proof (same_shape_lookup w1 w2 a Hs) as L.
    destruct (name_op_map (self w1) !! a) as [v1|],
             (name_op_map (self w2) !! a) as [v2|]; simplify_eq/=; [|done].
    destruct v1 as [| |e1], v2 as [| |e2]; simpl in L; try discriminate L;
      try (by destruct (idx =? 0)).
    injection L as L.
    pose proof (f_equal (fun l => PyStr.index l idx) L) as Hi. simpl in Hi.
    rewrite !index_fmap in Hi.
    destruct (PyStr.index e1 idx) as [x1|], (PyStr.index e2 idx) as [x2|];
      simpl in Hi; try discriminate Hi; [|done].
    injection Hi as Hi. simpl. rewrite !shape_of_elt. by rewrite Hi.
  - rewrite !get_too_many by (rewrite Es; simpl; lia). done.
Qed.

Lemma map_py_get_same_shape (refs : list string) w1 w2 :
  same_shape w1 w2 ->
  res_shapes (map_py get_op_handle_by_name refs w1)
  = res_shapes (map_py get_op_handle_by_name refs w2).
Proof.
  intros Hs. induction refs as [|r refs IH]; simpl; [done|]. unfold bind.
  pose proof (get_same_shape r w1 w2 Hs) as G.
  pose proof (get_op_handle_by_name_final r w1) as F1.
  pose proof (get_op_handle_by_name_final r w2) as F2.
  destruct (get_op_handle_by_name r w1) as [v1 ?|? ?],
           (get_op_handle_by_name r w2) as [v2 ?|? ?]; simplify_eq/=; [|done].
  destruct (map_py get_op_handle_by_name refs w1) as [vs1 ?|? ?],
           (map_py get_op_handle_by_name refs w2) as [vs2 ?|? ?];
    simplify_eq/=; [|done]. unfold ret. simpl. by f_equal; f_equal.
Qed.

Lemma same_shape_recorded n v1 v2 s1 s2 h1 h2 :
  same_shape (mkWorld s1 h1) (mkWorld s2 h2) ->
  shape_of v1 = shape_of v2 ->
  same_shape (mkWorld (recorded n v1 s1) h1) (mkWorld (recorded n v2 s2) h2).
Proof.
  intros [Ht Ha] Hv. split; simpl in *; [|done].
  by rewrite !fmap_insert, Ht, Hv.
Qed.

(** One node of the construction pass, from two importers of the same
    shape. *)
Lemma pass2_body_same_shape n w1 w2 :
  same_shape w1 w2 ->
  let r1 := pass2_body bridge n w1 in
  let r2 := pass2_body bridge n w2 in
  same_shape (final r1) (final r2) /\
  (raised r1 = None <-> raised r2 = None).
Proof.
  intros Hs r1 r2. subst r1 r2.
  pose proof (map_py_get_same_shape (input n) w1 w2 Hs) as M.
  destruct (map_py get_op_handle_by_name (input n) w1)
    as [ins1 w1'|e1 w1'] eqn:E1;
    destruct (map_py get_op_handle_by_name (input n) w2)
      as [ins2 w2'|e2 w2'] eqn:E2; simpl in M; try discriminate M.
  - injection M as M.
    pose proof (map_py_get_Ok _ _ _ _ E1) as ->.
    pose proof (map_py_get_Ok _ _ _ _ E2) as ->.
    pose proof (existsb_is_none_shape _ _ M) as En.
    destruct (existsb is_none ins1) eqn:En1; symmetry in En.
    { rewrite (pass2_body_missing bridge n w1 ins1 E1 En1).
      rewrite (pass2_body_missing bridge n w2 ins2 E2 En). simpl.
      split; [|done]. destruct w1, w2. by apply same_shape_recorded. }
    pose proof (bridge_det (init_assign_op_names (ops_bridge (self w1))) n
                  ins1 ins2 (names w1) (names w2) M) as D.
    destruct Hs as [Ht Ha].
    destruct (bridge (init_assign_op_names (ops_bridge (self w1))) n ins1
                     (names w1)) as [v1 h1|x1 h1] eqn:B1;
      destruct (bridge (init_assign_op_names (ops_bridge (self w1))) n ins2
                       (names w2)) as [v2 h2|x2 h2] eqn:B2;
      simpl in D; try discriminate D.
    + injection D as D. rewrite Ha in B2.
      destruct (decide (v1 = PTuple [])) as [->|Hv1].
      * assert (v2 = PTuple []) as ->.
        { destruct v2 as [| |[|? ?]]; simpl in D; by try discriminate D. }
        rewrite (pass2_body_empty_tuple bridge n w1 ins1 h1 E1 En1 B1).
        rewrite (pass2_body_empty_tuple bridge n w2 ins2 h2 E2 En B2).
        simpl. split; [|done]. split; simpl; done.
      * assert (v2 ≠ PTuple []) as Hv2.
        { intros ->. destruct v1 as [| |[|? ?]]; simpl in D;
            by try discriminate D. }
        destruct (pass2_body_return bridge n w1 ins1 v1 h1 E1 En1 B1 Hv1)
          as (h1' & -> & _).
        destruct (pass2_body_return bridge n w2 ins2 v2 h2 E2 En B2 Hv2)
          as (h2' & -> & _).
        simpl. split; [|done]. apply same_shape_recorded.
        -- split; simpl; done.
        -- by apply stored_shape.
    + rewrite Ha in B2.
      rewrite (pass2_body_bridge_raise bridge n w1 ins1 x1 h1 E1 En1 B1).
      rewrite (pass2_body_bridge_raise bridge n w2 ins2 x2 h2 E2 En B2).
      simpl. split; [|done]. split; simpl; done.
  - rewrite (pass2_body_input_raise bridge n w1 e1 w1' E1).
    rewrite (pass2_body_input_raise bridge n w2 e2 w2' E2). done.
Qed.

Lemma for_each_pass2_same_shape (nodes : list (NodeDef AttrValue)) w1 w2 :
  same_shape w1 w2 ->
  let r1 := for_each (pass2_body bridge) nodes w1 in
  let r2 := for_each (pass2_body bridge) nodes w2 in
  same_shape (final r1) (final r2) /\
  (raised r1 = None <-> raised r2 = None).
Proof.
  revert w1 w2. induction nodes as [|n nodes IH]; intros w1 w2 Hs; simpl.
  - done.
  - unfold bind. destruct (pass2_body_same_shape n w1 w2 Hs) as [S R].
    destruct (pass2_body bridge n w1) as [[] w1'|e1 w1'],
             (pass2_body bridge n w2) as [[] w2'|e2 w2']; simpl in *.
    + by apply IH.
    + destruct R as [R _]. by specialize (R eq_refl).
    + destruct R as [_ R]. by specialize (R eq_refl).
    + done.
Qed.

Lemma for_each_pass1_same_shape (nodes : list (NodeDef AttrValue)) w1 w2 :
  same_shape w1 w2 ->
  same_shape (final (for_each pass1_body nodes w1))
             (final (for_each pass1_body nodes w2)).
Proof.
  revert w1 w2. induction nodes as [|n nodes IH]; intros w1 w2 Hs; simpl;
    [done|].
  unfold bind, pass1_body. destruct (is_init n).
  - unfold set_self. apply IH. destruct Hs as [Ht Ha]. split; simpl; [done|].
    by rewrite Ha.
  - unfold ret. by apply IH.
Qed.

Lemma parse_graph_def_same_shape (nodes : list (NodeDef AttrValue)) w1 w2 :
  same_shape w1 w2 ->
  let r1 := parse_graph_def bridge nodes w1 in
  let r2 := parse_graph_def bridge nodes w2 in
  same_shape (final r1) (final r2) /\
  (raised r1 = None <-> raised r2 = None).
Proof.
  intros Hs. unfold parse_graph_def, bind at 1 3, set_self. unfold bind.
  set (w1' := mkWorld _ (names w1)). set (w2' := mkWorld _ (names w2)).
  assert (same_shape w1' w2') as Hs' by (destruct Hs; split; done).
  pose proof (for_each_pass1_same_shape nodes w1' w2' Hs') as P.
  destruct (for_each_pass1 nodes w1') as (u1 & E1 & _).
  destruct (for_each_pass1 nodes w2') as (u2 & E2 & _).
  rewrite E1, E2 in *. simpl in P.
  by apply for_each_pass2_same_shape.
Qed.

End Simulation.

(** ** The order of [sorted] *)

Lemma ascii_compare_N (a b : ascii) :
  Ascii.compare a b = N.compare (N_of_ascii a) (N_of_ascii b).
Proof. reflexivity. Qed.

Lemma string_leb_trans (a b c : string) :
  String.leb a b = true -> String.leb b c = true -> String.leb a c = true.
Proof.
  unfold String.leb. revert b c.
  induction a as [|x a IH]; intros [|y b] [|z c]; simpl; try done.
  rewrite !ascii_compare_N.
  destruct (N.compare_spec (N_of_ascii x) (N_of_ascii y)) as [Hxy|Hxy|Hxy];
    destruct (N.compare_spec (N_of_ascii y) (N_of_ascii z)) as [Hyz|Hyz|Hyz];
    destruct (N.compare_spec (N_of_ascii x) (N_of_ascii z)) as [Hxz|Hxz|Hxz];
    try done; try lia.
  apply IH.
Qed.

Global Instance str_le_total : Total str_le.
Proof. intros a b. apply String.leb_total. Qed.

Global Instance str_le_trans : Transitive str_le.
Proof. intros a b c. apply string_leb_trans. Qed.

Global Instance str_le_antisym : AntiSymm (=) str_le.
Proof. intros a b. apply String.leb_antisym. Qed.

Lemma sorted_spec (l : list string) :
  StronglySorted str_le (sorted l) /\ sorted l ≡ₚ l.
Proof.
  split; [apply StronglySorted_merge_sort; apply _|apply merge_sort_Permutation].
Qed.

(** ** The lines of op types *)





Section AuditFacts.

Variable dir_ob : list string.
Variable ob_dict : list string.



End AuditFacts.

(** ** The claims of the specification *)

Lemma existsb_is_none_elem (l : list pyval) :
  existsb is_none l = true <-> PNone ∈ l.
Proof.
  induction l as [|v l IH]; simpl.
  - split; [done|]. intros H. by apply elem_of_nil in H.
  - rewrite orb_true_iff, IH, elem_of_cons.
    destruct v; simpl; split; intros [?|?]; try done; eauto.
Qed.

Lemma existsb_is_none_not_elem (l : list pyval) :
  existsb is_none l = false <-> PNone ∉ l.
Proof.
  rewrite <- existsb_is_none_elem. by destruct (existsb is_none l).
Qed.

Lemma index_elem_of {A} (l : list A) (i : Z) (x : A) :
  PyStr.index l i = Some x -> x ∈ l.
Proof.
  unfold PyStr.index. intros Hi.
  repeat case_match; try done; by apply list_elem_of_lookup_2 in Hi.
Qed.

Section Claims.

Context {AttrValue : Type}.
Variable bridge :
  gset string -> NodeDef AttrValue -> list pyval -> heap -> bridge_outcome.
Implicit Types (w : world AttrValue) (n : NodeDef AttrValue).

(** A reference that is not malformed and whose base-name is not a key of
    the table raises [KeyError] for the base-name. *)
Lemma get_absent_KeyError (ref : string) w :
  ~ malformed ref ->
  name_op_map (self w) !! base_name ref = None ->
  get_op_handle_by_name ref w = Raise (KeyError (base_name ref)) w.
Proof.
  unfold malformed, base_name. intros Hm Hk.
  destruct (PyStr.split ":" (remove_tf_name_prefix ref))
    as [|a [|s [|x l]]] eqn:Es.
  - by apply split_not_nil in Es.
  - pose proof (split_singleton _ _ _ Es) as ->. simpl in Hk.
    rewrite get_unsuffixed by (by apply split_single_iff).
    unfold name_op_map_get. by rewrite Hk.
  - rewrite (get_suffixed _ _ _ _ Es). simpl in Hk, Hm. rewrite Hk.
    destruct (PyStr.int s); [done|]. exfalso. apply Hm. by right.
  - exfalso. apply Hm. left. simpl. lia.
Qed.

(** When a resolution comes to [None], the table holds [None] for the
    base-name, or a tuple whose element at the index of the suffix is
    [None]. *)
Lemma get_none_inv (ref : string) w w' :
  get_op_handle_by_name ref w = Ok PNone w' ->
  name_op_map (self w) !! base_name ref = Some PNone \/
  exists (elts : list (option loc)) (s : string) (k : Z),
    PyStr.split ":" (remove_tf_name_prefix ref) = [base_name ref; s] /\
    PyStr.int s = Some k /\
    name_op_map (self w) !! base_name ref = Some (PTuple elts) /\
    PyStr.index elts k = Some None.
Proof.
  unfold base_name.
  destruct (PyStr.split ":" (remove_tf_name_prefix ref))
    as [|a [|s [|x l]]] eqn:Es.
  - by apply split_not_nil in Es.
  - pose proof (split_singleton _ _ _ Es) as ->.
    rewrite get_unsuffixed by (by apply split_single_iff).
    unfold name_op_map_get. simpl.
    destruct (name_op_map (self w) !! _); [|done]. intros [= -> _]. by left.
  - rewrite (get_suffixed _ _ _ _ Es). simpl.
    destruct (PyStr.int s) as [idx|] eqn:Ek; [|done].
    destruct (name_op_map (self w) !! a) as [[| |elts]|] eqn:Et; try done.
    + intros _. by left.
    + by destruct (idx =? 0).
    + destruct (PyStr.index elts idx) as [[l|]|] eqn:Ei; try done.
      intros _. right. by exists elts, s, idx.
  - rewrite get_too_many by (rewrite Es; simpl; lia). done.
Qed.

(** C1, as amended: an input reference whose base-name is not a key of
    the table does not resolve to the missing marker.  Its resolution
    raises: [KeyError] for the base-name when the reference is not
    malformed, [AssertionError] or [ValueError] when it is.  A node list in
    which a node declares an input whose base-name is neither in the table
    at the start nor the name of an earlier node makes the import call
    raise.  An input resolves to [None] only where the table holds [None]
    for the base-name, or a tuple whose element at the index of the suffix
    is [None]. *)
Theorem absent_base_name_raises
    (pre post : list (NodeDef AttrValue)) n (ref : string) w :
  ref ∈ input n ->
  base_name ref ∉ dom (name_op_map (self w)) ->
  base_name ref ∉ map name pre ->
  (~ malformed ref ->
   get_op_handle_by_name ref w = Raise (KeyError (base_name ref)) w) /\
  (malformed ref ->
   exists e, get_op_handle_by_name ref w = Raise e w /\
             (e = AssertionError \/ e = ValueError)) /\
  raised (parse_graph_def bridge (pre ++ n :: post) w) ≠ None /\
  (forall w1 w2, get_op_handle_by_name ref w1 = Ok PNone w2 ->
     name_op_map (self w1) !! base_name ref = Some PNone \/
     exists (elts : list (option loc)) (s : string) (k : Z),
       PyStr.split ":" (remove_tf_name_prefix ref) = [base_name ref; s] /\
       PyStr.int s = Some k /\
       name_op_map (self w1) !! base_name ref = Some (PTuple elts) /\
       PyStr.index elts k = Some None).
Proof.
  intros Hin Hdom Hpre. split; [|split; [|split]].
  - intros Hm. apply get_absent_KeyError; [done|]. by apply not_elem_of_dom.
  - apply get_malformed.
  - destruct (parse_graph_def_pass2 bridge (pre ++ n :: post) w)
      as (w0 & -> & Ht & _).
    apply (for_each_pass2_raises bridge pre post n ref w0 Hin).
    intros w1 Hw1.
    destruct (get_absent ref w1) as (e & He & _); [|by exists e].
    apply not_elem_of_dom.
    rewrite (for_each_pass2_dom_Ok bridge pre w0 w1 Hw1), Ht.
    apply not_elem_of_union. split; [done|].
    rewrite elem_of_list_to_set. done.
  - intros w1 w2. apply get_none_inv.
Qed.

(** C2: a node one of whose resolved inputs is [None] is recorded as
    [None] under its own name; the bridge is not called for it, no [Op]
    object changes, and the construction pass goes on with the next
    node. *)
Theorem missing_input_skips_bridge
    n (rest : list (NodeDef AttrValue)) w (input_ops : list pyval) :
  map_py get_op_handle_by_name (input n) w = Ok input_ops w ->
  PNone ∈ input_ops ->
  exists w',
    pass2_body bridge n w = Ok tt w' /\
    name_op_map (self w') = <[name n := PNone]> (name_op_map (self w)) /\
    calls (ops_bridge (self w')) = calls (ops_bridge (self w)) /\
    names w' = names w /\
    for_each (pass2_body bridge) (n :: rest) w
    = for_each (pass2_body bridge) rest w'.
Proof.
  intros Hin Hnone. apply existsb_is_none_elem in Hnone.
  eexists. split; [by apply (pass2_body_missing bridge n w input_ops)|].
  simpl. unfold bind.
  by rewrite (pass2_body_missing bridge n w input_ops Hin Hnone).
Qed.

(** C4, as amended: what is stored under the node's own name when the
    bridge returns.  A tuple of two or more is stored as a tuple of the
    same, post-processed objects; one [Op], and equally a tuple of one, is
    stored as the single post-processed object; [None] is stored as
    [None].  Post-processing renames the returned objects and no
    other. *)
Theorem bridge_result_stored n w (input_ops : list pyval) v h :
  map_py get_op_handle_by_name (input n) w = Ok input_ops w ->
  PNone ∉ input_ops ->
  bridge (init_assign_op_names (ops_bridge (self w))) n input_ops (names w)
    = BReturn v h ->
  v ≠ PTuple [] ->
  exists w',
    pass2_body bridge n w = Ok tt w' /\
    calls (ops_bridge (self w'))
      = (calls (ops_bridge (self w)) ++ [(n, input_ops)])%list /\
    (forall l, l ∈ ops_of v -> names w' l = PyStr.replace "/" "_" (h l)) /\
    (forall l, l ∉ ops_of v -> names w' l = h l) /\
    (forall elts, v = PTuple elts -> (2 <= length elts)%nat ->
       name_op_map (self w') !! name n = Some (PTuple elts)) /\
    (forall e, v = PTuple [e] ->
       name_op_map (self w') !! name n = Some (of_elt e)) /\
    (forall l, v = POp l -> name_op_map (self w') !! name n = Some (POp l)) /\
    (v = PNone -> name_op_map (self w') !! name n = Some PNone).
Proof.
  intros Hin Hnone Hb Hv. apply existsb_is_none_not_elem in Hnone.
  destruct (pass2_body_return bridge n w input_ops v h Hin Hnone Hb Hv)
    as (h' & Hp & Hi & Ho).
  eexists. split; [exact Hp|]. simpl.
  split; [done|]. split; [done|]. split; [done|].
  repeat split.
  - intros elts -> Hl. rewrite lookup_insert_eq.
    destruct elts as [|e1 [|e2 elts]]; simpl in *; by try lia.
  - intros e ->. by rewrite lookup_insert_eq.
  - intros l ->. by rewrite lookup_insert_eq.
  - intros ->. by rewrite lookup_insert_eq.
Qed.

(** C5: a reference with more than one colon, or with one colon and no
    integer after it, does not resolve: [get_op_handle_by_name] raises
    ([AssertionError] in the first case, [ValueError] in the second)
    whatever the table holds, and an import call over a node list in
    which a node declares such an input raises. *)
Theorem malformed_reference_is_fatal
    (pre post : list (NodeDef AttrValue)) n (ref : string) w :
  malformed ref ->
  ref ∈ input n ->
  (forall w1 : world AttrValue,
     ((2 < length (PyStr.split ":" (remove_tf_name_prefix ref)))%nat ->
      get_op_handle_by_name ref w1 = Raise AssertionError w1) /\
     ((length (PyStr.split ":" (remove_tf_name_prefix ref)) = 2)%nat ->
      get_op_handle_by_name ref w1 = Raise ValueError w1)) /\
  raised (parse_graph_def bridge (pre ++ n :: post) w) ≠ None.
Proof.
  intros Hm Hin. split.
  - intros w1. split; [apply get_too_many|].
    intros H2. destruct Hm as [Hm|[_ Hm]]; [lia|].
    destruct (PyStr.split ":" (remove_tf_name_prefix ref))
      as [|a [|s [|x l]]] eqn:Es; simpl in H2; try lia.
    rewrite (get_suffixed _ _ _ _ Es). simpl in Hm. by rewrite Hm.
  - destruct (parse_graph_def_pass2 bridge (pre ++ n :: post) w)
      as (w0 & -> & _).
    apply (for_each_pass2_raises bridge pre post n ref w0 Hin).
    intros w1 _. destruct (get_malformed ref w1 Hm) as (e & He & _).
    by exists e.
Qed.

(** C6, as amended: every object the bridge returns for a node has
    afterwards the name the bridge left it with, every [/] replaced by [_]:
    the name of the node so rewritten where the bridge named the object
    after the node.  The table entry is stored under the node's name as it
    is, and a reference by that name (a name without colon and without the
    control prefix) resolves to the entry. *)
Theorem name_sanitized_key_kept n w (input_ops : list pyval) v h :
  map_py get_op_handle_by_name (input n) w = Ok input_ops w ->
  PNone ∉ input_ops ->
  bridge (init_assign_op_names (ops_bridge (self w))) n input_ops (names w)
    = BReturn v h ->
  v ≠ PTuple [] ->
  exists w',
    pass2_body bridge n w = Ok tt w' /\
    (forall l, l ∈ ops_of v ->
       names w' l = PyStr.replace "/" "_" (h l) /\
       PyStr.occurs "/" (names w' l) = false /\
       (h l = name n -> names w' l = PyStr.replace "/" "_" (name n))) /\
    ops_of (stored v) = ops_of v /\
    name_op_map (self w') !! name n = Some (stored v) /\
    (remove_tf_name_prefix (name n) = name n ->
     PyStr.occurs ":" (name n) = false ->
     get_op_handle_by_name (name n) w' = Ok (stored v) w').
Proof.
  intros Hin Hnone Hb Hv. apply existsb_is_none_not_elem in Hnone.
  destruct (pass2_body_return bridge n w input_ops v h Hin Hnone Hb Hv)
    as (h' & Hp & Hi & Ho).
  eexists. split; [exact Hp|]. simpl. split; [|split; [|split]].
  - intros l Hl. rewrite (Hi l Hl).
    split; [done|]. split; [apply replace_no_slash|]. by intros ->.
  - by destruct v as [| |[|[?|] [|? ?]]].
  - by rewrite lookup_insert_eq.
  - intros Hpre Hcolon. rewrite get_unsuffixed by (by rewrite Hpre).
    unfold name_op_map_get. simpl. by rewrite Hpre, lookup_insert_eq.
Qed.

(** C10: a reference [base:k] to an entry that is one [Op] resolves to
    that [Op] when [k] is 0 and raises otherwise; with the suffix [:0] it
    resolves as the reference [base] does. *)
Theorem single_output_suffix (base s : string) (k : Z) (o : loc) w :
  PyStr.occurs ":" base = false ->
  PyStr.int s = Some k ->
  name_op_map (self w) !! remove_tf_name_prefix base = Some (POp o) ->
  (k = 0 -> get_op_handle_by_name (base ++ ":" ++ s) w = Ok (POp o) w) /\
  (k ≠ 0 ->
   get_op_handle_by_name (base ++ ":" ++ s) w = Raise AssertionError w) /\
  get_op_handle_by_name (base ++ ":0") w = get_op_handle_by_name base w.
Proof.
  intros Hb Hs Ht.
  assert (forall t, PyStr.occurs ":" t = false ->
            PyStr.split ":" (remove_tf_name_prefix (base ++ ":" ++ t))
            = [remove_tf_name_prefix base; t]) as Hsplit.
  { intros t Hcolon.
    change (base ++ ":" ++ t) with (base ++ String ":" t).
    rewrite remove_prefix_app, split_app_sep.
    - f_equal. by apply split_single_iff.
    - by apply split_single_iff, remove_prefix_no_colon. }
  split; [|split].
  - intros ->. rewrite (get_suffixed _ _ _ _ (Hsplit s (int_no_colon s 0 Hs))).
    by rewrite Hs, Ht.
  - intros Hk. rewrite (get_suffixed _ _ _ _ (Hsplit s (int_no_colon s k Hs))).
    rewrite Hs, Ht. by destruct (Z.eqb_spec k 0).
  - rewrite (get_suffixed _ _ _ _ (Hsplit "0" eq_refl)).
    rewrite get_unsuffixed by (by apply remove_prefix_no_colon).
    unfold name_op_map_get. by rewrite Ht.
Qed.

End Claims.

(** The supported op names are the names of [dir(ob)] that do not start
    with an underscore and are no keys of [ob.__dict__]. *)
Lemma elem_of_supported_ops (dir_ob ob_dict : list string) (t : string) :
  t ∈ supported_ops dir_ob ob_dict <->
  t ∈ dir_ob /\ PyStr.take 1 t ≠ "_" /\ t ∉ ob_dict.
Proof.
  unfold supported_ops. rewrite elem_of_list_to_set, list_elem_of_filter.
  tauto.
Qed.


(** C8: [reset] leaves an empty table, a new bridge object with an empty
    assignment set, no initializer ops and no graph; with a bridge that
    decides the arity of its result from the node and the arities of the
    inputs, two runs of [reset] and [parse_graph_def] over the same node
    list, from any two states, end with tables of the same keys and, key by
    key, entries of the same arity, and one run raises exactly when the
    other does; a run that does not raise ends with the names of the nodes
    as keys. *)
Theorem reset_then_parse_is_repeatable {AttrValue : Type}
    (bridge : gset string -> NodeDef AttrValue -> list pyval -> heap ->
              bridge_outcome)
    (nodes : list (NodeDef AttrValue)) (w1 w2 : world AttrValue) :
  shape_deterministic bridge ->
  let run := reset ;;; parse_graph_def bridge nodes in
  reset w1 = Ok tt (mkWorld (mkTFImporter ∅ (mkOpsBridge ∅ []) [] None)
                            (names w1)) /\
  dom (name_op_map (self (final (run w1))))
  = dom (name_op_map (self (final (run w2)))) /\
  (forall key : string,
     shape_of <$> name_op_map (self (final (run w1))) !! key
     = shape_of <$> name_op_map (self (final (run w2))) !! key) /\
  (raised (run w1) = None <-> raised (run w2) = None) /\
  (raised (run w1) = None ->
   dom (name_op_map (self (final (run w1)))) = list_to_set (map name nodes)).
Proof.
  intros Hdet run. split; [done|].
  pose (u1 := @mkWorld AttrValue (mkTFImporter ∅ OpsBridge_new [] None)
                       (names w1)).
  pose (u2 := @mkWorld AttrValue (mkTFImporter ∅ OpsBridge_new [] None)
                       (names w2)).
  assert (run w1 = parse_graph_def bridge nodes u1) as -> by done.
  assert (run w2 = parse_graph_def bridge nodes u2) as -> by done.
  assert (same_shape u1 u2) as Hs by done.
  destruct (parse_graph_def_same_shape bridge Hdet nodes u1 u2 Hs) as [S R].
  split; [|split; [|split]].
  - destruct S as [S _]. by rewrite <- !(dom_fmap_L shape_of), S.
  - intros key. by apply same_shape_lookup.
  - done.
  - destruct (parse_graph_def_pass2 bridge nodes u1) as (u & -> & Ht & _).
    destruct (for_each (pass2_body bridge) nodes u) as [[] u'|e u'] eqn:E;
      [|done].
    intros _. simpl. rewrite (for_each_pass2_dom_Ok bridge nodes u u' E), Ht.
    simpl. rewrite dom_empty_L. by rewrite (left_id_L ∅ (∪)).
Qed.

(** A reference with a suffix to an entry that is a tuple selects the
    element the suffix names. *)
Lemma suffixed_reference_selects {AttrValue : Type}
    (base s : string) (k : Z) (elts : list (option loc)) (e : option loc)
    (w : world AttrValue) :
  PyStr.occurs ":" base = false ->
  PyStr.int s = Some k ->
  name_op_map (self w) !! remove_tf_name_prefix base = Some (PTuple elts) ->
  PyStr.index elts k = Some e ->
  get_op_handle_by_name (base ++ ":" ++ s) w = Ok (of_elt e) w.
Proof.
  intros Hb Hs Ht He.
  assert (PyStr.split ":" (remove_tf_name_prefix (base ++ ":" ++ s))
          = [remove_tf_name_prefix base; s]) as Hsplit.
  { change (base ++ ":" ++ s) with (base ++ String ":" s).
    rewrite remove_prefix_app, split_app_sep.
    - f_equal. by apply split_single_iff, (int_no_colon s k).
    - by apply split_single_iff, remove_prefix_no_colon. }
  rewrite (get_suffixed _ _ _ _ Hsplit). by rewrite Hs, Ht, He.
Qed.

(** C3 (the code at the failing input): the table holds a tuple of two
    for [bga]; the references [bga:0] and [bga:1] resolve to its elements,
    and the reference [bga] resolves to the tuple itself, not to its
    element 0. *)
Lemma unsuffixed_reference_returns_tuple :
  let w := importer_with {[ "bga" := PTuple [Some 1%nat; Some 2%nat] ]} in
  get_op_handle_by_name "bga:0" w = Ok (POp 1) w /\
  get_op_handle_by_name "bga:1" w = Ok (POp 2) w /\
  get_op_handle_by_name "bga" w = Ok (PTuple [Some 1%nat; Some 2%nat]) w /\
  get_op_handle_by_name "bga" w ≠ get_op_handle_by_name "bga:0" w.
Proof. vm_compute. repeat split; try reflexivity. discriminate. Qed.

(** C1 (counterexample): the node [b] declares the input [a], which no
    node before it is named; the table has no key [a], the resolution
    raises [KeyError], and so does the import call. *)
Lemma undeclared_input_raises_KeyError :
  let w := importer_with ∅ in
  name_op_map (self w) !! base_name "a" = None /\
  get_op_handle_by_name "a" w = Raise (KeyError "a") w /\
  raised (parse_graph_def example_bridge [node "b" "Add" ["a"]] w)
  = Some (KeyError "a").
Proof. vm_compute. repeat split; reflexivity. Qed.

(** C4 (counterexample): the bridge returns a tuple of one for the node
    [s], and the entry stored for [s] is the [Op], not a tuple. *)
Lemma one_tuple_stored_as_single :
  let w := importer_with ∅ in
  let n := node "s" "Shape" [] in
  bridge_shape (example_bridge ∅ n [] (names w)) = Some (STuple [false]) /\
  name_op_map (self (final (pass2_body example_bridge n w))) !! "s"
  = Some (POp 1) /\
  name_op_map (self (final (pass2_body example_bridge n w))) !! "s"
  ≠ Some (PTuple [Some 1%nat]).
Proof. vm_compute. repeat split; try reflexivity. discriminate. Qed.

(** [absent_base_name_raises] on the node list of one node [b] with the
    undeclared input [a], from an empty table. *)
Lemma absent_base_name_raises_witness :
  let n := node "b" "Add" ["a"] in
  let w := importer_with ∅ in
  ("a" ∈ input n /\
   (base_name "a" ∉ dom (name_op_map (self w))) /\
   base_name "a" ∉ map name ([] : list (NodeDef unit))) /\
  (~ malformed "a" ->
   get_op_handle_by_name "a" w = Raise (KeyError (base_name "a")) w) /\
  (malformed "a" ->
   exists e, get_op_handle_by_name "a" w = Raise e w /\
             (e = AssertionError \/ e = ValueError)) /\
  raised (parse_graph_def example_bridge ([] ++ n :: []) w) ≠ None /\
  (forall w1 w2 : world unit, get_op_handle_by_name "a" w1 = Ok PNone w2 ->
     name_op_map (self w1) !! base_name "a" = Some PNone \/
     exists (elts : list (option loc)) (s : string) (k : Z),
       PyStr.split ":" (remove_tf_name_prefix "a") = [base_name "a"; s] /\
       PyStr.int s = Some k /\
       name_op_map (self w1) !! base_name "a" = Some (PTuple elts) /\
       PyStr.index elts k = Some None).
Proof.
  intros n w.
  assert ("a" ∈ input n) as H1 by (by apply list_elem_of_here).
  assert (base_name "a" ∉ dom (name_op_map (self w))) as H2
    by (by vm_compute).
  assert (base_name "a" ∉ map name ([] : list (NodeDef unit))) as H3
    by apply not_elem_of_nil.
  split; [done|].
  exact (absent_base_name_raises example_bridge [] [] n "a" w H1 H2 H3).
Defined.

(** [missing_input_skips_bridge] on a node [c] whose input [a] is recorded
    as [None]. *)
Lemma missing_input_skips_bridge_witness :
  let n := node "c" "Add" ["a"] in
  let w := importer_with {[ "a" := PNone ]} in
  (map_py get_op_handle_by_name (input n) w = Ok [PNone] w /\
   PNone ∈ [PNone]) /\
  exists w',
    pass2_body example_bridge n w = Ok tt w' /\
    name_op_map (self w') = <[name n := PNone]> (name_op_map (self w)) /\
    calls (ops_bridge (self w')) = calls (ops_bridge (self w)) /\
    names w' = names w /\
    for_each (pass2_body example_bridge) (n :: []) w
    = for_each (pass2_body example_bridge) [] w'.
Proof.
  intros n w.
  assert (map_py get_op_handle_by_name (input n) w = Ok [PNone] w) as H1
    by (vm_compute; reflexivity).
  assert (PNone ∈ [PNone]) as H2 by apply list_elem_of_here.
  split; [done|].
  exact (missing_input_skips_bridge example_bridge n [] w [PNone] H1 H2).
Defined.

(** [bridge_result_stored] on a node with two outputs. *)
Lemma bridge_result_stored_witness :
  let n := node "t" "BroadcastGradientArgs" ["a"] in
  let w := importer_with {[ "a" := POp 7 ]} in
  let v := PTuple [Some 1%nat; Some 2%nat] in
  let h : heap := <[1%nat := "t"]> (<[2%nat := "t"]> (names w)) in
  (map_py get_op_handle_by_name (input n) w = Ok [POp 7] w /\
   (PNone ∉ [POp 7]) /\
   example_bridge (init_assign_op_names (ops_bridge (self w))) n [POp 7]
                  (names w) = BReturn v h /\
   v ≠ PTuple []) /\
  exists w',
    pass2_body example_bridge n w = Ok tt w' /\
    calls (ops_bridge (self w'))
      = (calls (ops_bridge (self w)) ++ [(n, [POp 7])])%list /\
    (forall l, l ∈ ops_of v -> names w' l = PyStr.replace "/" "_" (h l)) /\
    (forall l, l ∉ ops_of v -> names w' l = h l) /\
    (forall elts, v = PTuple elts -> (2 <= length elts)%nat ->
       name_op_map (self w') !! name n = Some (PTuple elts)) /\
    (forall e, v = PTuple [e] ->
       name_op_map (self w') !! name n = Some (of_elt e)) /\
    (forall l, v = POp l -> name_op_map (self w') !! name n = Some (POp l)) /\
    (v = PNone -> name_op_map (self w') !! name n = Some PNone).
Proof.
  intros n w v h.
  assert (map_py get_op_handle_by_name (input n) w = Ok [POp 7] w) as H1
    by (vm_compute; reflexivity).
  assert (PNone ∉ [POp 7]) as H2.
  { intros H. apply list_elem_of_singleton in H. discriminate H. }
  assert (example_bridge (init_assign_op_names (ops_bridge (self w))) n
            [POp 7] (names w) = BReturn v h) as H3 by reflexivity.
  assert (v ≠ PTuple []) as H4 by discriminate.
  split; [done|].
  exact (bridge_result_stored example_bridge n w [POp 7] v h H1 H2 H3 H4).
Defined.

(** [malformed_reference_is_fatal] on the reference [a:b], whose suffix is
    no integer, and on the reference [a:1:2], with two colons. *)
Lemma malformed_reference_is_fatal_witness :
  let n := node "z" "Add" ["a:b"] in
  let m := node "y" "Add" ["a:1:2"] in
  let w := importer_with {[ "a" := POp 7 ]} in
  ((malformed "a:b" /\ "a:b" ∈ input n) /\
   (forall w1 : world unit,
      ((2 < length (PyStr.split ":" (remove_tf_name_prefix "a:b")))%nat ->
       get_op_handle_by_name "a:b" w1 = Raise AssertionError w1) /\
      ((length (PyStr.split ":" (remove_tf_name_prefix "a:b")) = 2)%nat ->
       get_op_handle_by_name "a:b" w1 = Raise ValueError w1)) /\
   raised (parse_graph_def example_bridge ([] ++ n :: []) w) ≠ None) /\
  ((malformed "a:1:2" /\ "a:1:2" ∈ input m) /\
   (forall w1 : world unit,
      ((2 < length (PyStr.split ":" (remove_tf_name_prefix "a:1:2")))%nat ->
       get_op_handle_by_name "a:1:2" w1 = Raise AssertionError w1) /\
      ((length (PyStr.split ":" (remove_tf_name_prefix "a:1:2")) = 2)%nat ->
       get_op_handle_by_name "a:1:2" w1 = Raise ValueError w1)) /\
   raised (parse_graph_def example_bridge ([] ++ m :: []) w) ≠ None).
Proof.
  intros n m w.
  assert (malformed "a:b") as H1 by (right; vm_compute; done).
  assert ("a:b" ∈ input n) as H2 by apply list_elem_of_here.
  assert (malformed "a:1:2") as H3 by (left; vm_compute; lia).
  assert ("a:1:2" ∈ input m) as H4 by apply list_elem_of_here.
  split.
  - split; [done|].
    exact (malformed_reference_is_fatal example_bridge [] [] n "a:b" w H1 H2).
  - split; [done|].
    exact (malformed_reference_is_fatal example_bridge [] [] m "a:1:2" w
             H3 H4).
Defined.

(** What [int] takes for an integer after the colon: digits with single
    underscores between them, a sign, whitespace around, and nothing
    else. *)
Example integer_suffixes :
  let w := importer_with {[ "a" := PTuple [Some 1%nat; Some 2%nat] ]} in
  get_op_handle_by_name "a:0_1" w = Ok (POp 2) w /\
  get_op_handle_by_name "a: +1 " w = Ok (POp 2) w /\
  get_op_handle_by_name "a:-1" w = Ok (POp 2) w /\
  get_op_handle_by_name "a:1_" w = Raise ValueError w /\
  get_op_handle_by_name "a:" w = Raise ValueError w /\
  get_op_handle_by_name "a:0x1" w = Raise ValueError w.
Proof. vm_compute. repeat split; reflexivity. Qed.

(** [name_sanitized_key_kept] on the node [a/b/c]. *)
Lemma name_sanitized_key_kept_witness :
  let n := node "a/b/c" "Const" [] in
  let w := importer_with ∅ in
  let v := POp 5 in
  let h : heap := <[5%nat := "a/b/c"]> (names w) in
  (map_py get_op_handle_by_name (input n) w = Ok [] w /\
   (PNone ∉ ([] : list pyval)) /\
   example_bridge (init_assign_op_names (ops_bridge (self w))) n [] (names w)
     = BReturn v h /\
   v ≠ PTuple []) /\
  exists w',
    pass2_body example_bridge n w = Ok tt w' /\
    (forall l, l ∈ ops_of v ->
       names w' l = PyStr.replace "/" "_" (h l) /\
       PyStr.occurs "/" (names w' l) = false /\
       (h l = name n -> names w' l = PyStr.replace "/" "_" (name n))) /\
    ops_of (stored v) = ops_of v /\
    name_op_map (self w') !! name n = Some (stored v) /\
    (remove_tf_name_prefix (name n) = name n ->
     PyStr.occurs ":" (name n) = false ->
     get_op_handle_by_name (name n) w' = Ok (stored v) w').
Proof.
  intros n w v h.
  assert (map_py get_op_handle_by_name (input n) w = Ok [] w) as H1
    by reflexivity.
  assert (PNone ∉ ([] : list pyval)) as H2 by apply not_elem_of_nil.
  assert (example_bridge (init_assign_op_names (ops_bridge (self w))) n []
            (names w) = BReturn v h) as H3 by reflexivity.
  assert (v ≠ PTuple []) as H4 by discriminate.
  split; [done|].
  exact (name_sanitized_key_kept example_bridge n w [] v h H1 H2 H3 H4).
Defined.

(** C6 (counterexample): the bridge hands the [Op] of the node [a] back
    for the node [x/y]; the import returns, the entry of [x/y] is that
    [Op], and its name is still [a], not [x_y]. *)
Lemma forwarded_op_keeps_its_name :
  let r := parse_graph_def forwarding_bridge
             [node "a" "Const" []; node "x/y" "Identity" ["a"]]
             (importer_with ∅) in
  raised r = None /\
  name_op_map (self (final r)) !! "x/y" = Some (POp 1) /\
  names (final r) 1%nat = "a" /\
  names (final r) 1%nat ≠ PyStr.replace "/" "_" "x/y".
Proof. vm_compute. repeat split; try reflexivity. discriminate. Qed.

(** The scenario of the specification: the node [a/b/c] yields an [Op]
    named [a_b_c], and the reference [a/b/c] of the next node resolves to
    it. *)
Example sanitized_name_scenario :
  let r := parse_graph_def example_bridge
             [node "a/b/c" "Const" []; node "d" "Add" ["a/b/c"]]
             (importer_with ∅) in
  raised r = None /\
  name_op_map (self (final r)) !! "a/b/c" = Some (POp 5) /\
  names (final r) 5%nat = "a_b_c" /\
  calls (ops_bridge (self (final r)))
  = [(node "a/b/c" "Const" [], []); (node "d" "Add" ["a/b/c"], [POp 5])].
Proof. vm_compute. repeat split; reflexivity. Qed.

(** [single_output_suffix] on the reference [a:0] to a single [Op]. *)
Lemma single_output_suffix_witness :
  let w := importer_with {[ "a" := POp 7 ]} in
  (PyStr.occurs ":" "a" = false /\
   PyStr.int "0" = Some 0 /\
   name_op_map (self w) !! remove_tf_name_prefix "a" = Some (POp 7)) /\
  (0 = 0 -> get_op_handle_by_name ("a" ++ ":" ++ "0") w = Ok (POp 7) w) /\
  (0 ≠ 0 ->
   get_op_handle_by_name ("a" ++ ":" ++ "0") w = Raise AssertionError w) /\
  get_op_handle_by_name ("a" ++ ":0") w = get_op_handle_by_name "a" w.
Proof.
  intros w.
  assert (PyStr.occurs ":" "a" = false) as H1 by reflexivity.
  assert (PyStr.int "0" = Some 0) as H2 by reflexivity.
  assert (name_op_map (self w) !! remove_tf_name_prefix "a" = Some (POp 7))
    as H3 by (vm_compute; reflexivity).
  split; [done|].
  exact (single_output_suffix "a" "0" 0 7%nat w H1 H2 H3).
Defined.



(** The scenario of the specification: one node of the type
    [FancyNewOp], which the bridge does not have; a file that cannot be
    opened. *)
Example unsupported_op_scenario :
  _get_unimplemented_ops example_files example_dir example_dict "graph.pbtxt"
  = inr ["FancyNewOp"] /\
  _get_unimplemented_ops example_files example_dir example_dict "none.pbtxt"
  = inl (OtherError "IOError").
Proof. vm_compute. split; reflexivity. Qed.

(** The example bridge decides the arity of its result from the op type
    of the node alone. *)
Lemma example_bridge_shape_deterministic : shape_deterministic example_bridge.
Proof.
  intros a n ins1 ins2 h1 h2 _. unfold example_bridge.
  repeat case_match; reflexivity.
Qed.

(** [reset_then_parse_is_repeatable] on a graph of four nodes, the second
    run starting where the first one ended. *)
Lemma reset_then_parse_is_repeatable_witness :
  let nodes := [node "a/b" "Const" [];
                node "t" "BroadcastGradientArgs" ["a/b"];
                node "u" "FancyNewOp" ["t:1"];
                node "c" "Add" ["u"; "^a/b"]] in
  let run := reset ;;; parse_graph_def example_bridge nodes in
  let w1 := importer_with {[ "old" := POp 9 ]} in
  let w2 := final (run w1) in
  shape_deterministic example_bridge /\
  reset w1 = Ok tt (mkWorld (mkTFImporter ∅ (mkOpsBridge ∅ []) [] None)
                            (names w1)) /\
  dom (name_op_map (self (final (run w1))))
  = dom (name_op_map (self (final (run w2)))) /\
  (forall key : string,
     shape_of <$> name_op_map (self (final (run w1))) !! key
     = shape_of <$> name_op_map (self (final (run w2))) !! key) /\
  (raised (run w1) = None <-> raised (run w2) = None) /\
  (raised (run w1) = None ->
   dom (name_op_map (self (final (run w1)))) = list_to_set (map name nodes)).
Proof.
  intros nodes run w1 w2.
  split; [exact example_bridge_shape_deterministic|].
  exact (reset_then_parse_is_repeatable example_bridge nodes w1 w2
           example_bridge_shape_deterministic).
Defined.

(** * Further properties of the importer *)

Section NodeCases.

Context {AttrValue : Type}.
Variable bridge :
  gset string -> NodeDef AttrValue -> list pyval -> heap -> bridge_outcome.
Implicit Types (w : world AttrValue) (n : NodeDef AttrValue).

Lemma pass2_body_case n w : pass2_case bridge n w (pass2_body bridge n w).
Proof.
  destruct (map_py get_op_handle_by_name (input n) w) as [ins w1|e w1] eqn:Ei.
  - pose proof (map_py_get_Ok _ _ _ _ Ei) as ->.
    destruct (existsb is_none ins) eqn:En.
    { rewrite (pass2_body_missing bridge n w ins Ei En).
      apply (case_input_missing bridge n w ins Ei).
      by apply existsb_is_none_elem. }
    pose proof (proj1 (existsb_is_none_not_elem ins) En) as Hn.
    destruct (bridge (init_assign_op_names (ops_bridge (self w))) n ins (names w))
      as [v h|e h] eqn:Eb.
    + destruct (decide (v = PTuple [])) as [->|Hv].
      * rewrite (pass2_body_empty_tuple bridge n w ins h Ei En Eb).
        by apply case_empty_tuple.
      * destruct (pass2_body_return bridge n w ins v h Ei En Eb Hv)
          as (h' & -> & Hi & Ho).
        by apply (case_stored bridge n w ins v h h').
    + rewrite (pass2_body_bridge_raise bridge n w ins e h Ei En Eb).
      by apply case_bridge_raises.
  - pose proof (map_py_get_final (input n) w) as F. rewrite Ei in F.
    simpl in F. subst w1.
    rewrite (pass2_body_input_raise bridge n w e w Ei).
    by apply case_input_raises.
Qed.

Lemma map_py_get_length (refs : list string) w vs w' :
  map_py get_op_handle_by_name refs w = Ok vs w' -> length vs = length refs.
Proof.
  revert vs. induction refs as [|r refs IH]; intros vs; simpl.
  - unfold ret. by intros [= <- _].
  - unfold bind.
    pose proof (get_op_handle_by_name_final r w) as F.
    destruct (get_op_handle_by_name r w) as [v w1|e w1]; [|done].
    simpl in F. subst w1.
    destruct (map_py get_op_handle_by_name refs w) as [vs' w2|e w2] eqn:E;
      [|done].
    unfold ret. intros [= <- <-]. simpl. f_equal. by apply IH.
Qed.

End NodeCases.

Section ImportFacts.

Context {AttrValue : Type}.
Variable bridge :
  gset string -> NodeDef AttrValue -> list pyval -> heap -> bridge_outcome.
Implicit Types (w : world AttrValue) (n : NodeDef AttrValue).

(** *** The discovery pass *)

Lemma discovered_cons n (nodes : list (NodeDef AttrValue)) :
  discovered (n :: nodes)
  = (if is_init n then list_to_set (map remove_tf_name_prefix (input n))
     else ∅) ∪ discovered nodes.
Proof. reflexivity. Qed.

Lemma for_each_pass1_assign (nodes : list (NodeDef AttrValue)) w :
  init_assign_op_names (ops_bridge (self (final (for_each pass1_body nodes w))))
  = init_assign_op_names (ops_bridge (self w)) ∪ discovered nodes.
Proof.
  revert w. induction nodes as [|n nodes IH]; intros w.
  - change (discovered []) with (∅ : gset string). simpl.
    by rewrite (right_id_L ∅ (∪)).
  - cbn [for_each]. unfold bind, pass1_body. rewrite discovered_cons.
    destruct (is_init n).
    + unfold set_self. rewrite IH. simpl. by rewrite (assoc_L (∪)).
    + unfold ret. rewrite IH. by rewrite (left_id_L ∅ (∪)).
Qed.

Lemma for_each_pass2_assign (nodes : list (NodeDef AttrValue)) w :
  init_assign_op_names
    (ops_bridge (self (final (for_each (pass2_body bridge) nodes w))))
  = init_assign_op_names (ops_bridge (self w)).
Proof.
  revert w. induction nodes as [|n nodes IH]; intros w; [done|].
  cbn [for_each]. unfold bind.
  pose proof (pass2_body_table bridge n w) as T.
  destruct (pass2_body bridge n w) as [[] w1|e w1].
  - rewrite IH. by destruct T.
  - simpl. by destruct T.
Qed.

(** The import call is the second loop, run from the world the first loop
    leaves. *)
Lemma parse_graph_def_split (nodes : list (NodeDef AttrValue)) w :
  exists w1,
    parse_graph_def bridge nodes w = for_each (pass2_body bridge) nodes w1 /\
    init_assign_op_names (ops_bridge (self w1))
    = init_assign_op_names (ops_bridge (self w)) ∪ discovered nodes /\
    graph_def (self w1) = Some nodes /\
    name_op_map (self w1) = name_op_map (self w) /\
    init_ops (self w1) = init_ops (self w) /\
    calls (ops_bridge (self w1)) = calls (ops_bridge (self w)) /\
    names w1 = names w.
Proof.
  pose (w0 := mkWorld (mkTFImporter (name_op_map (self w)) (ops_bridge (self w))
                                    (init_ops (self w)) (Some nodes))
                      (names w)).
  pose proof (for_each_pass1_assign nodes w0) as A.
  destruct (for_each_pass1 nodes w0) as (w1 & E & Ht & Hn & Hc & Hi & Hg).
  rewrite E in A. simpl in A.
  exists w1. split; [|done].
  unfold parse_graph_def, bind, set_self. fold w0. by rewrite E.
Qed.

(** By the time the first node is processed the bridge holds the whole
    discovery set: the import call is the second loop run from a world that
    differs from the given one in the graph and in the assignment set, which
    has grown by the inputs of the initializer nodes, control prefix
    removed and output suffix kept; the second loop does not change the
    set, so it is also the set the call ends with. *)
Theorem discovery_precedes_construction (nodes : list (NodeDef AttrValue)) w :
  exists w1,
    parse_graph_def bridge nodes w = for_each (pass2_body bridge) nodes w1 /\
    init_assign_op_names (ops_bridge (self w1))
    = init_assign_op_names (ops_bridge (self w)) ∪ discovered nodes /\
    graph_def (self w1) = Some nodes /\
    name_op_map (self w1) = name_op_map (self w) /\
    names w1 = names w /\
    init_assign_op_names
      (ops_bridge (self (final (parse_graph_def bridge nodes w))))
    = init_assign_op_names (ops_bridge (self w)) ∪ discovered nodes.
Proof.
  destruct (parse_graph_def_split nodes w)
    as (w1 & Hp & Ha & Hg & Ht & _ & _ & Hn).
  exists w1. rewrite Hp, for_each_pass2_assign. done.
Qed.

(** *** The keys of the table *)

Lemma for_each_pass2_keys (nodes : list (NodeDef AttrValue)) w :
  exists pre post,
    nodes = (pre ++ post)%list /\
    dom (name_op_map (self (final (for_each (pass2_body bridge) nodes w))))
    = dom (name_op_map (self w)) ∪ list_to_set (map name pre) /\
    (raised (for_each (pass2_body bridge) nodes w) = None <-> post = []).
Proof.
  revert w. induction nodes as [|n nodes IH]; intros w.
  - exists [], []. simpl.
    by rewrite (right_id_L ∅ (∪)).
  - cbn [for_each]. unfold bind.
    pose proof (pass2_body_table bridge n w) as T.
    destruct (pass2_body bridge n w) as [[] w1|e w1].
    + destruct T as [[v Hv] _].
      destruct (IH w1) as (pre & post & -> & Hd & Hr).
      exists (n :: pre), post. split; [done|]. split; [|done].
      rewrite Hd, Hv, dom_insert_L. cbn [map].
      rewrite list_to_set_cons, (comm_L (∪) {[name n]}).
      by rewrite <- (assoc_L (∪)).
    + destruct T as [Ht _]. exists [], (n :: nodes). simpl.
      rewrite Ht. split; [done|]. split; [|done].
      by rewrite (right_id_L ∅ (∪)).
Qed.

(** An import call leaves in the table the keys it found and the names of
    the nodes it got through: all of them when it returns, those before the
    node at which it raised otherwise. *)
Theorem parse_keys (nodes : list (NodeDef AttrValue)) w :
  exists pre post,
    nodes = (pre ++ post)%list /\
    dom (name_op_map (self (final (parse_graph_def bridge nodes w))))
    = dom (name_op_map (self w)) ∪ list_to_set (map name pre) /\
    (raised (parse_graph_def bridge nodes w) = None <-> post = []).
Proof.
  destruct (parse_graph_def_pass2 bridge nodes w) as (w1 & -> & Ht & _).
  rewrite <- Ht. apply for_each_pass2_keys.
Qed.

(** *** What an import call does not touch *)

Lemma for_each_pass2_other_keys (nodes : list (NodeDef AttrValue)) w
    (key : string) :
  key ∉ map name nodes ->
  name_op_map (self (final (for_each (pass2_body bridge) nodes w))) !! key
  = name_op_map (self w) !! key.
Proof.
  revert w. induction nodes as [|n nodes IH]; intros w Hk; [done|].
  cbn [map] in Hk. apply not_elem_of_cons in Hk as [Hne Hk].
  cbn [for_each]. unfold bind.
  pose proof (pass2_body_table bridge n w) as T.
  destruct (pass2_body bridge n w) as [[] w1|e w1].
  - destruct T as [[v Hv] _]. rewrite (IH w1 Hk), Hv.
    by rewrite lookup_insert_ne.
  - simpl. destruct T as [-> _]. done.
Qed.

(** An import call writes only under the names of the nodes of its list:
    whether it returns or raises, every other key of the table keeps its
    entry, and a key that is not there stays out. *)
Theorem parse_other_keys (nodes : list (NodeDef AttrValue)) w (key : string) :
  key ∉ map name nodes ->
  name_op_map (self (final (parse_graph_def bridge nodes w))) !! key
  = name_op_map (self w) !! key.
Proof.
  intros Hk.
  destruct (parse_graph_def_pass2 bridge nodes w) as (w1 & -> & Ht & _).
  rewrite <- Ht. by apply for_each_pass2_other_keys.
Qed.

End ImportFacts.

Section ImportFacts2.

Context {AttrValue : Type}.
Variable bridge :
  gset string -> NodeDef AttrValue -> list pyval -> heap -> bridge_outcome.
Implicit Types (w : world AttrValue) (n : NodeDef AttrValue).

(** *** The calls of the bridge *)

Lemma for_each_pass2_calls (nodes : list (NodeDef AttrValue)) w :
  exists cs,
    calls (ops_bridge (self (final (for_each (pass2_body bridge) nodes w))))
    = (calls (ops_bridge (self w)) ++ cs)%list /\
    sublist (map fst cs) nodes /\
    Forall (fun c => (PNone ∉ c.2) /\ length c.2 = length (input c.1)) cs.
Proof.
  revert w. induction nodes as [|n nodes IH]; intros w.
  - exists []. simpl. rewrite app_nil_r. repeat split; constructor.
  - cbn [for_each]. unfold bind.
    destruct (pass2_body_case bridge n w)
      as [e Ei|ins Ei Hn|ins e h Ei Hn Eb|ins h Ei Hn Eb|ins v h h' Ei Hn Eb Hv _ _].
    + exists []. simpl. rewrite app_nil_r.
      repeat split; [apply sublist_nil_l|constructor].
    + destruct (IH (mkWorld (recorded n PNone (self w)) (names w)))
        as (cs & Hc & Hs & Hf).
      exists cs. split; [done|]. split; [by apply sublist_cons|done].
    + exists [(n, ins)]. simpl. split; [done|].
      split; [apply sublist_skip, sublist_nil_l|].
      repeat constructor; [done|]. simpl. by apply (map_py_get_length _ _ _ _ Ei).
    + exists [(n, ins)]. simpl. split; [done|].
      split; [apply sublist_skip, sublist_nil_l|].
      repeat constructor; [done|]. simpl. by apply (map_py_get_length _ _ _ _ Ei).
    + destruct (IH (mkWorld (recorded n (stored v) (logged n ins (self w))) h'))
        as (cs & Hc & Hs & Hf).
      exists ((n, ins) :: cs). split.
      { rewrite Hc. simpl. by rewrite <- app_assoc. }
      split; [by apply sublist_skip|].
      constructor; [|done]. split; [done|].
      simpl. by apply (map_py_get_length _ _ _ _ Ei).
Qed.

(** The bridge is called for the nodes in the order of the list and at
    most once for each, whether the import call returns or raises. *)
Theorem bridge_called_in_order (nodes : list (NodeDef AttrValue)) w :
  exists cs,
    calls (ops_bridge (self (final (parse_graph_def bridge nodes w))))
    = (calls (ops_bridge (self w)) ++ cs)%list /\
    sublist (map fst cs) nodes.
Proof.
  destruct (parse_graph_def_pass2 bridge nodes w) as (w1 & -> & _ & _ & Hc).
  destruct (for_each_pass2_calls nodes w1) as (cs & H1 & H2 & _).
  exists cs. by rewrite H1, Hc.
Qed.

(** Every call of the bridge gets one resolved input for each input the
    node declares, control inputs included, and never [None] among
    them. *)
Theorem bridge_inputs_resolved (nodes : list (NodeDef AttrValue)) w :
  exists cs,
    calls (ops_bridge (self (final (parse_graph_def bridge nodes w))))
    = (calls (ops_bridge (self w)) ++ cs)%list /\
    Forall (fun c => (PNone ∉ c.2) /\ length c.2 = length (input c.1)) cs.
Proof.
  destruct (parse_graph_def_pass2 bridge nodes w) as (w1 & -> & _ & _ & Hc).
  destruct (for_each_pass2_calls nodes w1) as (cs & H1 & _ & H2).
  exists cs. by rewrite H1, Hc.
Qed.

(** *** The initializer ops *)

Lemma for_each_pass2_init_ops (nodes : list (NodeDef AttrValue)) w :
  exists vs,
    init_ops (self (final (for_each (pass2_body bridge) nodes w)))
    = (init_ops (self w) ++ vs)%list /\
    (length vs <= length (List.filter is_init nodes))%nat /\
    (raised (for_each (pass2_body bridge) nodes w) = None ->
     length vs = length (List.filter is_init nodes)).
Proof.
  revert w. induction nodes as [|n nodes IH]; intros w.
  - exists []. simpl. by rewrite app_nil_r.
  - cbn [for_each List.filter]. unfold bind.
    destruct (pass2_body_case bridge n w)
      as [e Ei|ins Ei Hn|ins e h Ei Hn Eb|ins h Ei Hn Eb|ins v h h' Ei Hn Eb Hv _ _].
    + exists []. simpl. rewrite app_nil_r. split; [done|]. split; [lia|done].
    + destruct (IH (mkWorld (recorded n PNone (self w)) (names w)))
        as (vs & Hc & Hl & Hr). rewrite Hc. simpl.
      destruct (is_init n); simpl.
      * exists (PNone :: vs). rewrite <- app_assoc. simpl.
        split; [done|]. split; [lia|]. intros H. by rewrite Hr.
      * by exists vs.
    + exists []. simpl. rewrite app_nil_r. split; [done|]. split; [lia|done].
    + exists []. simpl. rewrite app_nil_r. split; [done|]. split; [lia|done].
    + destruct (IH (mkWorld (recorded n (stored v) (logged n ins (self w))) h'))
        as (vs & Hc & Hl & Hr). rewrite Hc. simpl.
      destruct (is_init n); simpl.
      * exists (stored v :: vs). rewrite <- app_assoc. simpl.
        split; [done|]. split; [lia|]. intros H. by rewrite Hr.
      * by exists vs.
Qed.

(** An import call only appends to [init_ops]: what was there stays in
    front, and a call that returns has appended one entry for each
    initializer node of the list; calls without a [reset] in between pile
    their entries up. *)
Theorem init_ops_appended (nodes : list (NodeDef AttrValue)) w :
  exists vs,
    init_ops (self (final (parse_graph_def bridge nodes w)))
    = (init_ops (self w) ++ vs)%list /\
    (length vs <= length (List.filter is_init nodes))%nat /\
    (raised (parse_graph_def bridge nodes w) = None ->
     length vs = length (List.filter is_init nodes)).
Proof.
  destruct (parse_graph_def_split bridge nodes w)
    as (w1 & -> & _ & _ & _ & Hi & _).
  rewrite <- Hi. apply for_each_pass2_init_ops.
Qed.

End ImportFacts2.

Section LookupFacts.

Context {AttrValue : Type}.
Implicit Types (w : world AttrValue) (n : NodeDef AttrValue).

(** *** Lookups *)

Lemma get_plain (ref : string) w v :
  plain ref ->
  name_op_map (self w) !! remove_tf_name_prefix ref = Some v ->
  get_op_handle_by_name ref w = Ok v w.
Proof.
  intros Hp Hv. rewrite get_unsuffixed by done.
  unfold name_op_map_get. by rewrite Hv.
Qed.

Lemma get_op_handle_list_final (tf_op : list (NodeDef AttrValue)) w :
  final (get_op_handle_list tf_op w) = w.
Proof.
  unfold get_op_handle_list.
  induction tf_op as [|n ns IH]; simpl; [done|]. unfold bind.
  pose proof (get_op_handle_by_name_final (name n) w) as F.
  destruct (get_op_handle_by_name (name n) w) as [v w1|e w1]; simpl in F;
    subst w1; [|done].
  destruct (map_py _ ns w) as [vs w2|e w2]; simpl in *; done.
Qed.

(** The lookups are read-only: [get_op_handle_by_name] and [get_op_handle],
    on one node or on a list of nodes, leave the importer and every [Op]
    object as they were, whether they return or raise. *)
Theorem lookups_change_nothing
    (ref : string) n (tf_op : list (NodeDef AttrValue)) w :
  final (get_op_handle_by_name ref w) = w /\
  final (get_op_handle n w) = w /\
  final (get_op_handle_list tf_op w) = w.
Proof.
  split; [apply get_op_handle_by_name_final|].
  split; [apply get_op_handle_by_name_final|apply get_op_handle_list_final].
Qed.

Lemma index_in_range {A} (l : list A) (i : Z) :
  - Z.of_nat (length l) <= i < Z.of_nat (length l) ->
  PyStr.index l i = l !! Z.to_nat (i mod Z.of_nat (length l)).
Proof.
  intros H. unfold PyStr.index.
  destruct (Z.leb_spec 0 i); simpl.
  - destruct (Z.ltb_spec i (Z.of_nat (length l))); [|lia].
    by rewrite Z.mod_small by lia.
  - destruct (Z.leb_spec (- Z.of_nat (length l)) i); [|lia].
    destruct (Z.ltb_spec i 0); [|lia]. simpl.
    f_equal. f_equal.
    rewrite <- (Z.mod_add i 1 (Z.of_nat (length l))) by lia.
    rewrite Z.mod_small by lia. lia.
Qed.

Lemma index_out_of_range {A} (l : list A) (i : Z) :
  i < - Z.of_nat (length l) \/ Z.of_nat (length l) <= i ->
  PyStr.index l i = None.
Proof.
  intros H. unfold PyStr.index.
  destruct (Z.leb_spec 0 i); simpl.
  - destruct (Z.ltb_spec i (Z.of_nat (length l))); [lia|].
    destruct (Z.leb_spec (- Z.of_nat (length l)) i); simpl; [|done].
    destruct (Z.ltb_spec i 0); [lia|done].
  - destruct (Z.leb_spec (- Z.of_nat (length l)) i); [lia|done].
Qed.

(** A suffixed reference to an entry that is a tuple of [len] elements
    resolves for the indices from [-len] to [len - 1], a negative index
    counting from the end, and raises [IndexError] for every other
    index. *)
Theorem tuple_index_bounds
    (base s : string) (k : Z) (elts : list (option loc)) w :
  PyStr.occurs ":" base = false ->
  PyStr.int s = Some k ->
  name_op_map (self w) !! remove_tf_name_prefix base = Some (PTuple elts) ->
  let len := Z.of_nat (length elts) in
  (- len <= k < len ->
   exists e, elts !! Z.to_nat (k mod len) = Some e /\
             get_op_handle_by_name (base ++ ":" ++ s) w = Ok (of_elt e) w) /\
  (k < - len \/ len <= k ->
   get_op_handle_by_name (base ++ ":" ++ s) w = Raise IndexError w).
Proof.
  intros Hb Hs Ht len.
  assert (PyStr.split ":" (remove_tf_name_prefix (base ++ ":" ++ s))
          = [remove_tf_name_prefix base; s]) as Hsplit.
  { change (base ++ ":" ++ s) with (base ++ String ":" s).
    rewrite remove_prefix_app, split_app_sep.
    - f_equal. by apply split_single_iff, (int_no_colon s k).
    - by apply split_single_iff, remove_prefix_no_colon. }
  rewrite (get_suffixed _ _ _ _ Hsplit), Hs, Ht. split.
  - intros Hk. rewrite (index_in_range elts k Hk).
    assert (Z.to_nat (k mod len) < length elts)%nat as Hlt.
    { pose proof (Z.mod_pos_bound k len). lia. }
    destruct (lookup_lt_is_Some_2 elts _ Hlt) as [e He].
    exists e. fold len. by rewrite He.
  - intros Hk. by rewrite (index_out_of_range elts k Hk).
Qed.

(** *** Renaming *)

(** [post_process_op] on an [Op] returns the same object and leaves it
    with a name of the same length and without [/]; no other object and no
    attribute of the importer changes, a second call changes nothing more,
    and on [None] the call does nothing. *)
Theorem post_process_op_effect (l : loc) w :
  exists w',
    post_process_op (Some l) w = Ok (Some l) w' /\
    self w' = self w /\
    PyStr.occurs "/" (names w' l) = false /\
    String.length (names w' l) = String.length (names w l) /\
    (forall l', l' ≠ l -> names w' l' = names w l') /\
    (exists w'', post_process_op (Some l) w' = Ok (Some l) w'' /\
                 forall l', names w'' l' = names w' l') /\
    post_process_op None w = Ok None w.
Proof.
  eexists. split; [reflexivity|]. simpl. split; [done|].
  rewrite fn_lookup_insert. split; [apply replace_no_slash|].
  split.
  { induction (names w l) as [|c s IH]; simpl; [done|]. by rewrite IH. }
  split.
  { intros l' Hne. by rewrite fn_lookup_insert_ne. }
  split; [|done].
  eexists. split; [reflexivity|]. simpl. intros l'.
  destruct (decide (l = l')) as [<-|Hne].
  - by rewrite !fn_lookup_insert, replace_idemp.
  - by rewrite !fn_lookup_insert_ne.
Qed.

End LookupFacts.

Section ImportFacts3.

Context {AttrValue : Type}.
Variable bridge :
  gset string -> NodeDef AttrValue -> list pyval -> heap -> bridge_outcome.
Implicit Types (w : world AttrValue) (n : NodeDef AttrValue).

(** *** Imports that return *)

Lemma map_py_get_plain (refs : list string) w :
  Forall (fun ref => plain ref /\
            remove_tf_name_prefix ref ∈ dom (name_op_map (self w))) refs ->
  exists vs, map_py get_op_handle_by_name refs w = Ok vs w.
Proof.
  induction 1 as [|r refs [Hp Hk] _ IH]; [by exists []|].
  apply elem_of_dom in Hk as [v Hv]. destruct IH as [vs IH].
  exists (v :: vs). simpl. unfold bind.
  by rewrite (get_plain r w v Hp Hv), IH.
Qed.

Lemma declared_before_use_mono (keys keys' : gset string)
    (nodes : list (NodeDef AttrValue)) :
  keys ⊆ keys' ->
  declared_before_use keys nodes -> declared_before_use keys' nodes.
Proof.
  revert keys keys'. induction nodes as [|n nodes IH]; intros keys keys' Hs;
    [done|].
  intros [Hf Hd]. split.
  - eapply Forall_impl; [exact Hf|]. intros ref [Hp Hk]. split; [done|].
    by apply Hs.
  - apply (IH ({[name n]} ∪ keys)); [|done].
    by apply union_mono_l.
Qed.

Lemma for_each_pass2_returns (nodes : list (NodeDef AttrValue)) w :
  bridge_returns bridge ->
  declared_before_use (dom (name_op_map (self w))) nodes ->
  raised (for_each (pass2_body bridge) nodes w) = None.
Proof.
  intros Hb. revert w. induction nodes as [|n nodes IH]; intros w; [done|].
  intros [Hf Hd]. cbn [for_each]. unfold bind.
  destruct (map_py_get_plain (input n) w Hf) as [vs Hvs].
  destruct (pass2_body_case bridge n w)
    as [e Ei|ins Ei Hn|ins e h Ei Hn Eb|ins h Ei Hn Eb|ins v h h' Ei Hn Eb Hv _ _].
  - congruence.
  - apply IH. simpl. by rewrite dom_insert_L.
  - destruct (Hb (init_assign_op_names (ops_bridge (self w))) n ins (names w))
      as (v & h' & Hr & _). congruence.
  - destruct (Hb (init_assign_op_names (ops_bridge (self w))) n ins (names w))
      as (v & h' & Hr & Hv). congruence.
  - apply IH. simpl. by rewrite dom_insert_L.
Qed.

(** A graph in declaration order imports: when every input reference is
    without suffix and names a key of the table or an earlier node, and
    the bridge returns for every node something other than the empty tuple,
    the import call returns, and the keys of the table are the ones it had
    and the names of all the nodes. *)
Theorem declared_graph_imports (nodes : list (NodeDef AttrValue)) w :
  bridge_returns bridge ->
  declared_before_use (dom (name_op_map (self w))) nodes ->
  exists w',
    parse_graph_def bridge nodes w = Ok tt w' /\
    dom (name_op_map (self w'))
    = dom (name_op_map (self w)) ∪ list_to_set (map name nodes).
Proof.
  intros Hb Hd.
  destruct (parse_graph_def_split bridge nodes w)
    as (w1 & -> & _ & _ & Ht & _).
  rewrite <- Ht in *.
  pose proof (for_each_pass2_returns nodes w1 Hb Hd) as R.
  destruct (for_each (pass2_body bridge) nodes w1) as [[] w'|e w'] eqn:E;
    [|done].
  exists w'. split; [done|]. by apply (for_each_pass2_dom_Ok bridge).
Qed.

(** *** The entries of the table *)

Lemma stored_no_short_tuple (v : pyval) :
  v ≠ PTuple [] -> no_short_tuple (stored v).
Proof.
  destruct v as [| |[|e [|e' l]]]; simpl; try done.
  - by destruct e.
  - intros _. lia.
Qed.

Lemma for_each_pass2_no_short_tuple (nodes : list (NodeDef AttrValue)) w :
  map_Forall (fun _ v => no_short_tuple v) (name_op_map (self w)) ->
  map_Forall (fun _ v => no_short_tuple v)
    (name_op_map (self (final (for_each (pass2_body bridge) nodes w)))).
Proof.
  revert w. induction nodes as [|n nodes IH]; intros w Hw; [done|].
  cbn [for_each]. unfold bind.
  destruct (pass2_body_case bridge n w)
    as [e Ei|ins Ei Hn|ins e h Ei Hn Eb|ins h Ei Hn Eb|ins v h h' Ei Hn Eb Hv _ _];
    try done.
  - apply IH. simpl. by apply map_Forall_insert_2.
  - apply IH. simpl. apply map_Forall_insert_2; [|done].
    by apply stored_no_short_tuple.
Qed.

(** No entry the importer writes is a tuple of fewer than two elements:
    a table without such entries, the empty one that [reset] leaves for
    one, has none after an import call, whether the call returns or
    raises. *)
Theorem no_short_tuple_entries (nodes : list (NodeDef AttrValue)) w :
  map_Forall (fun _ v => no_short_tuple v) (name_op_map (self w)) ->
  map_Forall (fun _ v => no_short_tuple v)
    (name_op_map (self (final (parse_graph_def bridge nodes w)))) /\
  map_Forall (fun _ v => no_short_tuple v)
    (name_op_map
       (self (final ((reset ;;; parse_graph_def bridge nodes) w)))).
Proof.
  intros Hw. split.
  - destruct (parse_graph_def_split bridge nodes w)
      as (w1 & -> & _ & _ & Ht & _).
    apply for_each_pass2_no_short_tuple. by rewrite Ht.
  - change ((reset ;;; parse_graph_def bridge nodes) w)
      with (parse_graph_def bridge nodes
              (mkWorld (mkTFImporter ∅ OpsBridge_new [] None) (names w))).
    destruct (parse_graph_def_split bridge nodes
                (mkWorld (mkTFImporter ∅ OpsBridge_new [] None) (names w)))
      as (w1 & -> & _ & _ & Ht & _).
    apply for_each_pass2_no_short_tuple. rewrite Ht. simpl.
    apply map_Forall_empty.
Qed.

(** After an import call that returns, every node of the list whose name
    has neither colon nor control prefix can be looked up: [get_op_handle]
    returns the entry of the table, and when the table had no short tuples
    before the call the reference to output 0 of the node resolves as
    well. *)
Theorem imported_nodes_resolve (nodes : list (NodeDef AttrValue)) n w w' :
  parse_graph_def bridge nodes w = Ok tt w' ->
  n ∈ nodes ->
  remove_tf_name_prefix (name n) = name n ->
  PyStr.occurs ":" (name n) = false ->
  exists v,
    name_op_map (self w') !! name n = Some v /\
    get_op_handle n w' = Ok v w' /\
    (map_Forall (fun _ v => no_short_tuple v) (name_op_map (self w)) ->
     exists v0, get_op_handle_by_name (name n ++ ":0") w' = Ok v0 w').
Proof.
  intros Hp Hin Hpre Hcolon.
  assert (name n ∈ dom (name_op_map (self w'))) as Hd.
  { destruct (parse_graph_def_split bridge nodes w)
      as (w1 & Hs & _ & _ & Ht & _).
    rewrite Hs in Hp. rewrite (for_each_pass2_dom_Ok bridge nodes w1 w' Hp).
    apply elem_of_union_r, elem_of_list_to_set, list_elem_of_fmap.
    by exists n. }
  apply elem_of_dom in Hd as [v Hv]. exists v. split; [done|]. split.
  - unfold get_op_handle. apply get_plain; [unfold plain|]; by rewrite Hpre.
  - intros Hw.
    assert (no_short_tuple v) as Hns.
    { destruct (parse_graph_def_split bridge nodes w)
        as (w1 & Hs & _ & _ & Ht & _).
      pose proof (for_each_pass2_no_short_tuple nodes w1) as I.
      rewrite <- Hs, Hp, Ht in I. exact (I Hw (name n) v Hv). }
    assert (PyStr.split ":" (remove_tf_name_prefix (name n ++ ":0"))
            = [name n; "0"]) as Hsplit.
    { change (name n ++ ":0") with (name n ++ String ":" "0").
      rewrite remove_prefix_app, Hpre, split_app_sep; [done|].
      by apply split_single_iff. }
    rewrite (get_suffixed _ _ _ _ Hsplit), Hv.
    change (PyStr.int "0") with (Some 0).
    destruct v as [| |[|e [|e' l]]]; simpl in Hns; try lia; by eexists.
Qed.

End ImportFacts3.

(** *** Names with a colon *)

Lemma split_head_no_sep (sep : ascii) (s : string) :
  PyStr.occurs sep (nth 0 (PyStr.split sep s) "") = false.
Proof.
  induction s as [|c s IH]; simpl; [done|].
  destruct (Ascii.eqb c sep) eqn:E; [done|].
  pose proof (split_not_nil sep s) as Hn.
  destruct (PyStr.split sep s) as [|p ps]; [done|].
  simpl in *. by rewrite E, IH.
Qed.

Section ColonKeys.

Context {AttrValue : Type}.
Implicit Types (w : world AttrValue).

(** What a resolution comes to is decided by the entry of the table for
    the base-name of the reference. *)
Lemma get_depends_on_base (ref : string) w1 w2 :
  name_op_map (self w1) !! base_name ref
  = name_op_map (self w2) !! base_name ref ->
  raised (get_op_handle_by_name ref w1) = raised (get_op_handle_by_name ref w2) /\
  returned (get_op_handle_by_name ref w1)
  = returned (get_op_handle_by_name ref w2).
Proof.
  unfold base_name.
  destruct (PyStr.split ":" (remove_tf_name_prefix ref))
    as [|a [|s [|x l]]] eqn:Es.
  - by apply split_not_nil in Es.
  - pose proof (split_singleton _ _ _ Es) as ->. simpl. intros H.
    rewrite !get_unsuffixed by (by apply split_single_iff).
    unfold name_op_map_get. rewrite H.
    by destruct (name_op_map (self w2) !! _).
  - simpl. intros H. rewrite !(get_suffixed _ _ _ _ Es), H.
    destruct (PyStr.int s) as [idx|]; [|done].
    destruct (name_op_map (self w2) !! a) as [[| |elts]|]; try done.
    + by destruct (idx =? 0).
    + by destruct (idx =? 0).
    + by destruct (PyStr.index elts idx).
  - intros _. rewrite !get_too_many by (rewrite Es; simpl; lia). done.
Qed.

(** An entry under a name with a colon in it is out of reach: no
    reference resolves to it, for resolution cuts every reference at its
    first colon; writing such an entry changes what no reference resolves
    to. *)
Theorem colon_key_out_of_reach (key ref : string) (v : pyval) w :
  PyStr.occurs ":" key = true ->
  base_name ref ≠ key /\
  raised (get_op_handle_by_name ref (with_entry key v w))
  = raised (get_op_handle_by_name ref w) /\
  returned (get_op_handle_by_name ref (with_entry key v w))
  = returned (get_op_handle_by_name ref w).
Proof.
  intros Hk.
  assert (base_name ref ≠ key) as Hne.
  { intros <-. unfold base_name in Hk. by rewrite split_head_no_sep in Hk. }
  split; [done|]. apply get_depends_on_base. simpl.
  by rewrite lookup_insert_ne.
Qed.

End ColonKeys.

(** *** The audit, whatever the lines are *)

Section AuditFacts2.

Variable read_lines : string -> exn + list string.
Variable dir_ob : list string.
Variable ob_dict : list string.

(** A line the audit takes for an op line, and one it cannot read an op
    type from. *)
Lemma op_name_of_None (line : string) :
  op_name_of line = None <-> PyStr.occurs " " line = false.
Proof.
  unfold op_name_of. rewrite <- split_single_iff.
  pose proof (split_not_nil " " line) as Hn. split.
  - destruct (PyStr.split " " line) as [|a [|b l]] eqn:E; try done.
    intros _. by rewrite (split_singleton _ _ _ E).
  - by intros ->.
Qed.

Lemma required_ops_loop_spec (lines : list string) (acc : gset string) :
  match required_ops_loop lines acc with
  | inl e =>
      e = IndexError /\
      Exists (fun line => PyStr.take 3 line = "op:" /\ op_name_of line = None)
             lines
  | inr required_ops =>
      Forall (fun line => PyStr.take 3 line = "op:" -> op_name_of line ≠ None)
             lines /\
      forall t, t ∈ required_ops <->
        t ∈ acc \/
        exists line, line ∈ lines /\ PyStr.take 3 line = "op:" /\
                     op_name_of line = Some t
  end.
Proof.
  revert acc. induction lines as [|line lines IH]; intros acc.
  - simpl. split; [constructor|]. intros t. split; [by left|].
    intros [H|(l & H & _)]; [done|]. by apply elem_of_nil in H.
  - cbn [required_ops_loop]. unfold op_name_of in *.
    destruct (String.eqb_spec (PyStr.take 3 line) "op:") as [E|E].
    + destruct (PyStr.split " " line !! 1%nat) as [field|] eqn:Ef.
      * specialize (IH (acc ∪ {[PyStr.slice_1_m1 field]})).
        destruct (required_ops_loop lines _) as [e|S].
        -- destruct IH as [-> IH]. split; [done|]. by apply Exists_cons_tl.
        -- destruct IH as [Hf IH]. split.
           { constructor; [|done]. intros _. by rewrite Ef. }
           intros t. rewrite IH, elem_of_union, elem_of_singleton. split.
           ++ intros [[H| ->]|(l & Hl & H3 & Hn)].
              ** by left.
              ** right. exists line. rewrite Ef. split; [apply list_elem_of_here|done].
              ** right. exists l. split; [by apply list_elem_of_further|done].
           ++ intros [H|(l & Hl & H3 & Hn)]; [by left; left|].
              apply elem_of_cons in Hl as [->|Hl].
              ** left. right. rewrite Ef in Hn. by injection Hn as <-.
              ** right. by exists l.
      * split; [done|]. apply Exists_cons_hd. by rewrite Ef.
    + specialize (IH acc). destruct (required_ops_loop lines acc) as [e|S].
      * destruct IH as [-> IH]. split; [done|]. by apply Exists_cons_tl.
      * destruct IH as [Hf IH]. split; [by constructor|].
        intros t. rewrite IH. split.
        -- intros [H|(l & Hl & H3 & Hn)]; [by left|].
           right. exists l. split; [by apply list_elem_of_further|done].
        -- intros [H|(l & Hl & H3 & Hn)]; [by left|].
           apply elem_of_cons in Hl as [->|Hl]; [done|].
           right. by exists l.
Qed.

(** The audit raises exactly in two cases: the file cannot be read, and
    the exception is that of the reading; or the file is read and some
    stripped line starts with [op:] and has no space in it, and the
    exception is [IndexError]. *)
Theorem audit_raises_iff (pb_path : string) (e : exn) :
  _get_unimplemented_ops read_lines dir_ob ob_dict pb_path = inl e <->
  read_lines pb_path = inl e \/
  (e = IndexError /\
   exists lines line,
     read_lines pb_path = inr lines /\ line ∈ lines /\
     PyStr.take 3 (PyStr.strip line) = "op:" /\
     PyStr.occurs " " (PyStr.strip line) = false).
Proof.
  unfold _get_unimplemented_ops.
  destruct (read_lines pb_path) as [e0|lines].
  { split; [intros [= ->]; by left|].
    intros [[= ->]|(_ & ? & ? & ? & _)]; done. }
  pose proof (required_ops_loop_spec (map PyStr.strip lines) ∅) as S.
  destruct (required_ops_loop (map PyStr.strip lines) ∅) as [e1|R].
  - destruct S as [-> S]. split.
    + intros [= <-]. right. split; [done|].
      apply Exists_exists in S as (l & Hl & H3 & Hn).
      apply list_elem_of_fmap in Hl as (line & -> & Hl).
      exists lines, line. split; [done|]. split; [done|]. split; [done|].
      by apply op_name_of_None.
    + intros [H|[-> _]]; done.
  - destruct S as [S _]. split; [done|].
    intros [H|(_ & lines' & line & [= <-] & Hl & H3 & Hs)]; [done|].
    exfalso. rewrite Forall_forall in S.
    apply (S (PyStr.strip line)); [|done|by apply op_name_of_None].
    apply list_elem_of_fmap. by exists line.
Qed.

(** When the audit returns, its result is in ascending order without
    repetition and holds exactly the strings read off the op lines of the
    file, as [line.split(' ')[1][1:-1]] of the stripped line, that are not
    supported op names: names of [dir(ob)] that do not start with an
    underscore and are no instance attributes.  The characters cut off at
    both ends need not be quotes. *)
Theorem audit_result_members (pb_path : string) (lines result : list string) :
  read_lines pb_path = inr lines ->
  _get_unimplemented_ops read_lines dir_ob ob_dict pb_path = inr result ->
  StronglySorted str_le result /\
  NoDup result /\
  forall t, t ∈ result <->
    (exists line, line ∈ lines /\
       PyStr.take 3 (PyStr.strip line) = "op:" /\
       op_name_of (PyStr.strip line) = Some t) /\
    ~ (t ∈ dir_ob /\ PyStr.take 1 t ≠ "_" /\ t ∉ ob_dict).
Proof.
  unfold _get_unimplemented_ops. intros ->.
  pose proof (required_ops_loop_spec (map PyStr.strip lines) ∅) as S.
  destruct (required_ops_loop (map PyStr.strip lines) ∅) as [e|R]; [done|].
  destruct S as [_ S]. intros [= <-].
  destruct (sorted_spec (elements (R ∖ supported_ops dir_ob ob_dict)))
    as [Hs Hp].
  split; [done|]. split; [rewrite Hp; apply NoDup_elements|].
  intros t.
  rewrite Hp, elem_of_elements, elem_of_difference, S, elem_of_supported_ops.
  split.
  - intros [[H|(l & Hl & H3 & Hn)] Hsup]; [by apply elem_of_empty in H|].
    split; [|done]. apply list_elem_of_fmap in Hl as (line & -> & Hl).
    by exists line.
  - intros [(line & Hl & H3 & Hn) Hsup]. split; [|done]. right.
    exists (PyStr.strip line). split; [|done].
    apply list_elem_of_fmap. by exists line.
Qed.

(** The audit depends on the set of the op lines of the file only: two
    files with the same op lines, in whatever order and however often
    repeated, get the same outcome. *)
Theorem audit_order_irrelevant
    (pb_path1 pb_path2 : string) (lines1 lines2 : list string) :
  read_lines pb_path1 = inr lines1 ->
  read_lines pb_path2 = inr lines2 ->
  (forall line, line ∈ op_lines lines1 <-> line ∈ op_lines lines2) ->
  _get_unimplemented_ops read_lines dir_ob ob_dict pb_path1
  = _get_unimplemented_ops read_lines dir_ob ob_dict pb_path2.
Proof.
  intros Hr1 Hr2 Heq. unfold _get_unimplemented_ops. rewrite Hr1, Hr2.
  assert (forall lines l,
            l ∈ op_lines lines <->
            l ∈ map PyStr.strip lines /\ PyStr.take 3 l = "op:") as Hop.
  { intros lines l. unfold op_lines. by rewrite list_elem_of_filter, (comm and). }
  pose proof (required_ops_loop_spec (map PyStr.strip lines1) ∅) as S1.
  pose proof (required_ops_loop_spec (map PyStr.strip lines2) ∅) as S2.
  destruct (required_ops_loop (map PyStr.strip lines1) ∅) as [e1|R1],
           (required_ops_loop (map PyStr.strip lines2) ∅) as [e2|R2].
  - destruct S1 as [-> _], S2 as [-> _]. done.
  - exfalso. destruct S1 as [_ S1], S2 as [S2 _].
    apply Exists_exists in S1 as (l & Hl & H3 & Hn).
    rewrite Forall_forall in S2. apply (S2 l); [|done|done].
    apply (Hop lines2), Heq, Hop. done.
  - exfalso. destruct S2 as [_ S2], S1 as [S1 _].
    apply Exists_exists in S2 as (l & Hl & H3 & Hn).
    rewrite Forall_forall in S1. apply (S1 l); [|done|done].
    apply (Hop lines1), Heq, Hop. done.
  - destruct S1 as [_ S1], S2 as [_ S2].
    assert (R1 = R2) as ->; [|done].
    apply set_eq. intros t. rewrite S1, S2.
    split; (intros [H|(l & Hl & H3 & Hn)]; [by left|]; right; exists l;
            split; [|done]).
    + apply (Hop lines2), Heq, Hop. done.
    + apply (Hop lines1), Heq, Hop. done.
Qed.

End AuditFacts2.

(** *** The further properties on examples *)

(** [parse_other_keys] on a list of one node [b] and the key [a]. *)
Lemma parse_other_keys_witness :
  let nodes := [node "b" "Const" []] in
  let w := importer_with {[ "a" := POp 7 ]} in
  ("a" ∉ map name nodes) /\
  name_op_map (self (final (parse_graph_def example_bridge nodes w))) !! "a"
  = name_op_map (self w) !! "a".
Proof.
  intros nodes w.
  assert ("a" ∉ map name nodes) as H1.
  { intros H. apply list_elem_of_singleton in H. discriminate H. }
  split; [done|].
  exact (parse_other_keys example_bridge nodes w "a" H1).
Defined.

(** [tuple_index_bounds] on the reference [t:-1] to a tuple of two. *)
Lemma tuple_index_bounds_witness :
  let elts := [Some 1%nat; Some 2%nat] in
  let w := importer_with {[ "t" := PTuple elts ]} in
  (PyStr.occurs ":" "t" = false /\
   PyStr.int "-1" = Some (-1) /\
   name_op_map (self w) !! remove_tf_name_prefix "t" = Some (PTuple elts)) /\
  let len := Z.of_nat (length elts) in
  (- len <= -1 < len ->
   exists e, elts !! Z.to_nat (-1 mod len) = Some e /\
             get_op_handle_by_name ("t" ++ ":" ++ "-1") w = Ok (of_elt e) w) /\
  (-1 < - len \/ len <= -1 ->
   get_op_handle_by_name ("t" ++ ":" ++ "-1") w = Raise IndexError w).
Proof.
  intros elts w.
  assert (PyStr.occurs ":" "t" = false) as H1 by reflexivity.
  assert (PyStr.int "-1" = Some (-1)) as H2 by reflexivity.
  assert (name_op_map (self w) !! remove_tf_name_prefix "t"
          = Some (PTuple elts)) as H3 by (vm_compute; reflexivity).
  split; [done|].
  exact (tuple_index_bounds "t" "-1" (-1) elts w H1 H2 H3).
Defined.

(** The example bridge always returns, and never the empty tuple. *)
Lemma example_bridge_returns : bridge_returns example_bridge.
Proof.
  intros a n ins h. unfold example_bridge.
  repeat case_match; eexists _, _; split; done.
Qed.

(** [declared_graph_imports] on a graph of two nodes, the second with a
    data input and a control input. *)
Lemma declared_graph_imports_witness :
  let nodes := [node "a" "Const" []; node "b" "Add" ["a"; "^a"]] in
  let w := importer_with ∅ in
  (bridge_returns example_bridge /\
   declared_before_use (dom (name_op_map (self w))) nodes) /\
  exists w',
    parse_graph_def example_bridge nodes w = Ok tt w' /\
    dom (name_op_map (self w'))
    = dom (name_op_map (self w)) ∪ list_to_set (map name nodes).
Proof.
  intros nodes w.
  assert (declared_before_use (dom (name_op_map (self w))) nodes) as H2.
  { split; [constructor|]. split; [|done].
    repeat constructor; apply elem_of_union_l, elem_of_singleton; reflexivity. }
  split; [split; [exact example_bridge_returns|done]|].
  exact (declared_graph_imports example_bridge nodes w
           example_bridge_returns H2).
Defined.

(** [no_short_tuple_entries] on a table with one entry, and a node for
    which the bridge returns a tuple of one. *)
Lemma no_short_tuple_entries_witness :
  let nodes := [node "s" "Shape" []] in
  let w := importer_with {[ "a" := POp 7 ]} in
  map_Forall (fun _ v => no_short_tuple v) (name_op_map (self w)) /\
  map_Forall (fun _ v => no_short_tuple v)
    (name_op_map (self (final (parse_graph_def example_bridge nodes w)))) /\
  map_Forall (fun _ v => no_short_tuple v)
    (name_op_map
       (self (final ((reset ;;; parse_graph_def example_bridge nodes) w)))).
Proof.
  intros nodes w.
  assert (map_Forall (fun _ v => no_short_tuple v) (name_op_map (self w)))
    as H1 by (by apply map_Forall_singleton).
  split; [done|].
  exact (no_short_tuple_entries example_bridge nodes w H1).
Defined.

(** [imported_nodes_resolve] on the second node of a graph of two. *)
Lemma imported_nodes_resolve_witness :
  let n := node "t" "BroadcastGradientArgs" ["a"] in
  let nodes := [node "a" "Const" []; n] in
  let w := importer_with ∅ in
  let w' := final (parse_graph_def example_bridge nodes w) in
  (parse_graph_def example_bridge nodes w = Ok tt w' /\
   n ∈ nodes /\
   remove_tf_name_prefix (name n) = name n /\
   PyStr.occurs ":" (name n) = false) /\
  exists v,
    name_op_map (self w') !! name n = Some v /\
    get_op_handle n w' = Ok v w' /\
    (map_Forall (fun _ v => no_short_tuple v) (name_op_map (self w)) ->
     exists v0, get_op_handle_by_name (name n ++ ":0") w' = Ok v0 w').
Proof.
  intros n nodes w w'.
  assert (parse_graph_def example_bridge nodes w = Ok tt w') as H1
    by (vm_compute; reflexivity).
  assert (n ∈ nodes) as H2 by apply list_elem_of_further, list_elem_of_here.
  assert (remove_tf_name_prefix (name n) = name n) as H3 by reflexivity.
  assert (PyStr.occurs ":" (name n) = false) as H4 by reflexivity.
  split; [done|].
  exact (imported_nodes_resolve example_bridge nodes n w w' H1 H2 H3 H4).
Defined.

(** [colon_key_out_of_reach] on the key [a:b] and the reference [a:b]. *)
Lemma colon_key_out_of_reach_witness :
  let w := importer_with ∅ in
  PyStr.occurs ":" "a:b" = true /\
  base_name "a:b" ≠ "a:b" /\
  raised (get_op_handle_by_name "a:b" (with_entry "a:b" (POp 1) w))
  = raised (get_op_handle_by_name "a:b" w) /\
  returned (get_op_handle_by_name "a:b" (with_entry "a:b" (POp 1) w))
  = returned (get_op_handle_by_name "a:b" w).
Proof.
  intros w.
  assert (PyStr.occurs ":" "a:b" = true) as H1 by reflexivity.
  split; [done|].
  exact (colon_key_out_of_reach "a:b" "a:b" (POp 1) w H1).
Defined.

(** [audit_result_members] on the example file. *)
Lemma audit_result_members_witness :
  (example_files "graph.pbtxt" = inr example_file /\
   _get_unimplemented_ops example_files example_dir example_dict
                          "graph.pbtxt" = inr ["FancyNewOp"]) /\
  StronglySorted str_le ["FancyNewOp"] /\
  NoDup ["FancyNewOp"] /\
  forall t, t ∈ ["FancyNewOp"] <->
    (exists line, line ∈ example_file /\
       PyStr.take 3 (PyStr.strip line) = "op:" /\
       op_name_of (PyStr.strip line) = Some t) /\
    ~ (t ∈ example_dir /\ PyStr.take 1 t ≠ "_" /\ t ∉ example_dict).
Proof.
  assert (example_files "graph.pbtxt" = inr example_file) as H0
    by reflexivity.
  assert (_get_unimplemented_ops example_files example_dir example_dict
            "graph.pbtxt" = inr ["FancyNewOp"]) as H1
    by (vm_compute; reflexivity).
  split; [exact (conj H0 H1)|].
  exact (audit_result_members example_files example_dir example_dict
           "graph.pbtxt" example_file ["FancyNewOp"] H0 H1).
Defined.

(** [audit_order_irrelevant] on the example file and the example file
    written twice. *)
Lemma audit_order_irrelevant_witness :
  let twice := (example_file ++ example_file)%list in
  (example_files "graph.pbtxt" = inr example_file /\
   example_files "twice.pbtxt" = inr twice /\
   (forall line, line ∈ op_lines example_file <-> line ∈ op_lines twice)) /\
  _get_unimplemented_ops example_files example_dir example_dict "graph.pbtxt"
  = _get_unimplemented_ops example_files example_dir example_dict
                           "twice.pbtxt".
Proof.
  intros twice.
  assert (example_files "graph.pbtxt" = inr example_file) as H0
    by reflexivity.
  assert (example_files "twice.pbtxt" = inr twice) as H0' by reflexivity.
  assert (forall line, line ∈ op_lines example_file <-> line ∈ op_lines twice)
    as H1.
  { intros line. unfold twice, op_lines.
    rewrite map_app, filter_app, elem_of_app. tauto. }
  split; [exact (conj H0 (conj H0' H1))|].
  exact (audit_order_irrelevant example_files example_dir example_dict
           "graph.pbtxt" "twice.pbtxt" example_file twice H0 H0' H1).
Defined.
